(** * Synergy Squares: the game coordinator of the HTTP server

    A shallow embedding of the server half of [src/public/app.js]
    (the game state, [getBoardState], [checkLevelCompletion],
    [completeLevel], [ensureOnline] and the handlers of /board, /join,
    /hold and /release), followed by the properties of the
    specification that concern it; then the accounts ([handleRegister],
    [handleLogin]), [handleLeaderboard], the routes of [handleRequest]
    and what [updateBoard] reads in a snapshot, with further properties
    of the server as a whole.

    Modelling decisions.
    - The two JavaScript objects used as dictionaries, [occupied] and
      [playersOnline], are finite maps.  [Object.keys(o).length] is the
      size of the map.  The enumeration order of [Object.values] is the
      one of [map_to_list]; no statement below depends on it.
    - A player identifier is a string; the empty string is the falsy
      one.  [playersOnline[playerId]] on a plain object also finds what
      the object inherits from [Object.prototype].  [handleRelease]
      looks up whatever identifier the request carries, so its lookup
      is modelled with the inherited members ([member]).
      [ensureOnline] only looks up identifiers found in the directory,
      and [generatePlayerId] only makes identifiers that start with
      p_: the directory is taken to hold none of the inherited names.
    - A square index is the number that [JSON.parse] produced.  Every
      finite double is a rational, comparison of doubles is comparison
      of these rationals, and the property key of a number determines
      it (both zeros give the key 0), so a square index is a canonical
      rational [Qc], and [occupied] is keyed by [Qc].  A literal too
      large for a double parses to Infinity, which the range check
      refuses as it does any number from squaresCount on.
    - The fields of a registration and of an account are strings.
      The email of a login is any JSON value ([Json]): a string, a
      falsy value, or a truthy value that is not a string, on which
      [toLowerCase] is not a function; what a handler throws is caught
      by [parseJsonBody], which calls the handler again with the error.
      [toLowerCase] is an interface, [Array.prototype.sort] a stable
      sort, and [generatePlayerId] (clock and random numbers) gives its
      result as an argument of [handleRegister].
    - [squaresCount], [currentLevel] and [levelsCompleted] are integers
      ([Z]); the 2^53 limit of exact doubles is not modelled.
    - The handlers run to completion one at a time (one Node.js event
      loop), so a handler is a function from the state to the new state
      and the list of effects it performed, in order: writes of
      players.json and the JSON response.
    - The request of a handler is [None] when [parseJsonBody] hands it
      an error: the body does not parse, or it parses to [null], whose
      destructuring throws inside the try before anything is done. *)

From Stdlib Require Import ZArith QArith Qcanon.
From stdpp Require Import gmap strings list fin_maps numbers sorting.

Local Open Scope Z_scope.

(** ** Data *)

(** An entry of players.json.  [levelsCompleted] may be missing in a
    file written by hand: the code reads it as
    [stored.levelsCompleted || 0]. *)
Record Player := mkPlayer {
  p_id : string;
  p_nickname : string;
  p_email : string;
  p_password : string;
  p_country : string;
  p_role : string;
  p_levelsCompleted : option Z
}.

(** A value of [playersOnline]; [o_squareIndex = None] is [null]. *)
Record Online := mkOnline {
  o_id : string;
  o_nickname : string;
  o_country : string;
  o_role : string;
  o_levelsCompleted : Z;
  o_squareIndex : option Qc
}.

(** The module-level variables of the server. *)
Record Server := mkServer {
  players : list Player;
  currentLevel : Z;
  squaresCount : Z;
  occupied : gmap Qc string;
  playersOnline : gmap string Online
}.

(** An element of [players] in the object built by [getBoardState]. *)
Record PlayerView := mkView {
  v_id : string;
  v_nickname : string;
  v_country : string;
  v_squareIndex : option Qc
}.

(** The object built by [getBoardState]. *)
Record Board := mkBoard {
  b_level : Z;
  b_squaresCount : Z;
  b_occupied : gmap Qc string;
  b_players : list PlayerView
}.

(** The bodies passed to [writeJson]. *)
Inductive Body :=
| Failure (message : string)                      (* { success: false, message } *)
| Success (board : Board)                         (* { success: true, board } *)
| Held (board : Board) (levelCompleted : bool)    (* { success: true, board, levelCompleted } *)
| Plain (board : Board).                          (* the board itself *)

Inductive Event :=
| SavePlayers (content : list Player)             (* fs.writeFileSync(playersFile, ...) *)
| WriteJson (status : Z) (body : Body).           (* res.writeHead(status); res.end(body) *)

(** The parsed request body, as far as the handlers read it:
    [d_playerId = None] when the property is missing, [d_squareIndex =
    None] when it is missing or not a number. *)
Record Data := mkData {
  d_playerId : option string;
  d_squareIndex : option Qc
}.

Instance Online_eq_dec : EqDecision Online.
Proof. solve_decision. Defined.

Instance PlayerView_eq_dec : EqDecision PlayerView.
Proof. solve_decision. Defined.

(** ** The handler monad: state, effects in order, early return *)

Definition M (A : Type) : Type := Server → option A * Server * list Event.

Definition ret {A} (a : A) : M A := λ s, (Some a, s, []).

Definition bind {A B} (m : M A) (f : A → M B) : M B := λ s,
  match m s with
  | (Some a, s1, e1) => let '(r, s2, e2) := f a s1 in (r, s2, e1 ++ e2)
  | (None, s1, e1) => (None, s1, e1)
  end.

Definition gets {A} (f : Server → A) : M A := λ s, (Some (f s), s, []).
Definition modify (f : Server → Server) : M unit := λ s, (Some tt, f s, []).
Definition emit (e : Event) : M unit := λ s, (Some tt, s, [e]).

(** [return e;] in the middle of a handler: nothing after it runs. *)
Definition leave {A} : M A := λ s, (None, s, []).

Declare Scope handler_scope.
Delimit Scope handler_scope with handler.
Notation "'let*' x ':=' m 'in' k" := (bind m (λ x, k))
  (at level 10, x name, m at level 100, k at level 200) : handler_scope.
Notation "m ;; k" := (bind m (λ _, k))
  (at level 100, right associativity) : handler_scope.
Local Open Scope handler_scope.

(** [if (b) return e;] *)
Definition return_if (b : bool) (e : M unit) : M unit :=
  if b then (e ;; leave) else ret tt.

(** The state and the effects of running a handler. *)
Definition exec {A} (m : M A) (s : Server) : Server * list Event :=
  let '(_, s', ev) := m s in (s', ev).

Definition state_after {A} (m : M A) (s : Server) : Server := (exec m s).1.
Definition effects {A} (m : M A) (s : Server) : list Event := (exec m s).2.

(** ** Field updates *)

Definition set_players (ps : list Player) (s : Server) : Server :=
  mkServer ps (currentLevel s) (squaresCount s) (occupied s) (playersOnline s).
Definition set_currentLevel (l : Z) (s : Server) : Server :=
  mkServer (players s) l (squaresCount s) (occupied s) (playersOnline s).
Definition set_squaresCount (n : Z) (s : Server) : Server :=
  mkServer (players s) (currentLevel s) n (occupied s) (playersOnline s).
Definition set_occupied (o : gmap Qc string) (s : Server) : Server :=
  mkServer (players s) (currentLevel s) (squaresCount s) o (playersOnline s).
Definition set_playersOnline (po : gmap string Online) (s : Server) : Server :=
  mkServer (players s) (currentLevel s) (squaresCount s) (occupied s) po.

Definition with_squareIndex (i : option Qc) (p : Online) : Online :=
  mkOnline (o_id p) (o_nickname p) (o_country p) (o_role p) (o_levelsCompleted p) i.
Definition with_levelsCompleted (n : Z) (p : Online) : Online :=
  mkOnline (o_id p) (o_nickname p) (o_country p) (o_role p) n (o_squareIndex p).
Definition stored_with_levelsCompleted (n : Z) (p : Player) : Player :=
  mkPlayer (p_id p) (p_nickname p) (p_email p) (p_password p) (p_country p)
           (p_role p) (Some n).

(** ** The server *)

(** [x || 0] on a counter that may be missing. *)
Definition or0 (x : option Z) : Z := default 0 x.

(** [players.find((p) => p.id === id)] *)
Fixpoint getPlayerById (ps : list Player) (id : string) : option Player :=
  match ps with
  | [] => None
  | p :: ps' => if decide (p_id p = id) then Some p else getPlayerById ps' id
  end.

(** The state at start-up, [players] being what [loadPlayers] read. *)
Definition initial (ps : list Player) : Server := mkServer ps 1 4 ∅ ∅.

Definition view (p : Online) : PlayerView :=
  mkView (o_id p) (o_nickname p) (o_country p) (o_squareIndex p).

(** [Object.values(o)] *)
Definition values {K A} `{Countable K} (m : gmap K A) : list A := (map_to_list m).*2.

(** [getBoardState] and [checkLevelCompletion] only read the module
    variables: they are functions of the state. *)
Definition getBoardState (s : Server) : Board :=
  mkBoard (currentLevel s) (squaresCount s) (occupied s)
          (view <$> values (playersOnline s)).

Definition checkLevelCompletion (s : Server) : bool :=
  let allOccupied := bool_decide (Z.of_nat (size (occupied s)) = squaresCount s) in
  let activePlayers := Z.of_nat (size (playersOnline s)) in
  allOccupied && bool_decide (activePlayers = squaresCount s).

(** [stored.levelsCompleted = (stored.levelsCompleted || 0) + 1] on the
    entry that [getPlayerById] finds, which is the first with that id. *)
Fixpoint creditStored (id : string) (ps : list Player) : list Player :=
  match ps with
  | [] => []
  | p :: ps' =>
      if decide (p_id p = id)
      then stored_with_levelsCompleted (or0 (p_levelsCompleted p) + 1) p :: ps'
      else p :: creditStored id ps'
  end.

Definition holding (p : Online) : bool := bool_decide (o_squareIndex p ≠ None).

(** The body of the first [forEach] of [completeLevel], on the
    directory and on the online entry. *)
Definition creditDirectory (ps : list Player) (p : Online) : list Player :=
  if holding p then creditStored (o_id p) ps else ps.
Definition creditOnline (p : Online) : Online :=
  if holding p then with_levelsCompleted (o_levelsCompleted p + 1) p else p.

Definition completeLevel : M unit :=
  modify (λ s, set_playersOnline (creditOnline <$> playersOnline s)
                 (set_players (foldl creditDirectory (players s) (values (playersOnline s))) s)) ;;
  let* ps := gets players in
  emit (SavePlayers ps) ;;
  modify (λ s, set_currentLevel (currentLevel s + 1) s) ;;
  modify (λ s, set_squaresCount (squaresCount s * 2) s) ;;
  modify (set_occupied ∅) ;;
  modify (λ s, set_playersOnline (with_squareIndex None <$> playersOnline s) s).

Definition writeJson (status : Z) (body : Body) : M unit := emit (WriteJson status body).

Definition handleBoard : M unit :=
  let* b := gets getBoardState in
  writeJson 200 (Plain b).

(** The entry that [ensureOnline] makes from a directory entry. *)
Definition fresh (stored : Player) : Online :=
  mkOnline (p_id stored) (p_nickname stored) (p_country stored) (p_role stored)
           (or0 (p_levelsCompleted stored)) None.

Definition ensureOnline (playerId : string) : M (option Online) :=
  let* ps := gets players in
  match getPlayerById ps playerId with
  | None => ret None
  | Some stored =>
      let* po := gets playersOnline in
      (if bool_decide (po !! playerId = None)
       then modify (set_playersOnline (<[playerId := fresh stored]> po))
       else ret tt) ;;
      gets (λ s, playersOnline s !! playerId)
  end.

(** Truthiness of [occupied[squareIndex]], a string or [undefined]. *)
Definition truthy (v : option string) : bool :=
  match v with
  | Some s => bool_decide (s ≠ "")
  | None => false
  end.

(** [!playerId] for a string or a missing property. *)
Definition missing (v : option string) : bool := negb (truthy v).

Definition handleHold (req : option Data) : M unit :=
  match req with
  | None => writeJson 400 (Failure "Invalid JSON")
  | Some data =>
    return_if (missing (d_playerId data) || bool_decide (d_squareIndex data = None))
      (writeJson 400 (Failure "Missing parameters")) ;;
    let playerId := default "" (d_playerId data) in
    let squareIndex := default 0%Qc (d_squareIndex data) in
    let* player := ensureOnline playerId in
    match player with
    | None => writeJson 400 (Failure "Unknown player")
    | Some player =>
      let* n := gets squaresCount in
      return_if (bool_decide (squareIndex < 0)%Qc || bool_decide (Qc_of_Z n ≤ squareIndex)%Qc)
        (writeJson 400 (Failure "Invalid square index")) ;;
      let* po := gets playersOnline in
      return_if (bool_decide (Z.of_nat (size po) ≠ n))
        (writeJson 403 (Failure "Not enough players to start level")) ;;
      return_if (holding player)
        (writeJson 403 (Failure "Player already holds a square")) ;;
      let* occ := gets occupied in
      return_if (truthy (occ !! squareIndex))
        (writeJson 403 (Failure "Square already occupied")) ;;
      modify (set_occupied (<[squareIndex := o_id player]> occ)) ;;
      modify (set_playersOnline (<[playerId := with_squareIndex (Some squareIndex) player]> po)) ;;
      let* levelCompleted := gets checkLevelCompletion in
      (if levelCompleted then completeLevel else ret tt) ;;
      let* b := gets getBoardState in
      writeJson 200 (Held b levelCompleted)
    end
  end.

(** The properties every plain object inherits from [Object.prototype]. *)
Definition objectPrototype : list string :=
  ["constructor"; "__defineGetter__"; "__defineSetter__"; "hasOwnProperty";
   "__lookupGetter__"; "__lookupSetter__"; "isPrototypeOf"; "propertyIsEnumerable";
   "toString"; "valueOf"; "__proto__"; "toLocaleString"].

(** The value of [playersOnline[playerId]]: an entry of the dictionary,
    or what the prototype chain gives (a function, or [Object.prototype]
    itself for __proto__; each is truthy and has no [squareIndex]), or
    [undefined]. *)
Inductive Member :=
| Own (player : Online)
| Inherited
| Undefined.

Definition member (po : gmap string Online) (playerId : string) : Member :=
  match po !! playerId with
  | Some player => Own player
  | None => if bool_decide (playerId ∈ objectPrototype) then Inherited else Undefined
  end.

Definition handleRelease (req : option Data) : M unit :=
  match req with
  | None => writeJson 400 (Failure "Invalid JSON")
  | Some data =>
    return_if (missing (d_playerId data))
        (writeJson 400 (Failure "Missing playerId")) ;;
    let playerId := default "" (d_playerId data) in
    let* po := gets playersOnline in
    match member po playerId with
    | Undefined => writeJson 400 (Failure "Player not online")
    | Inherited =>
      (* [idx] is [undefined]: lines 670-671 are skipped *)
      let* b := gets getBoardState in
      writeJson 200 (Success b)
    | Own player =>
      match o_squareIndex player with
      | Some idx =>
          modify (λ s, set_occupied (delete idx (occupied s)) s) ;;
          modify (set_playersOnline (<[playerId := with_squareIndex None player]> po))
      | None => ret tt
      end ;;
      let* b := gets getBoardState in
      writeJson 200 (Success b)
    end
  end.

Definition handleJoin (req : option Data) : M unit :=
  match req with
  | None => writeJson 400 (Failure "Invalid JSON")
  | Some data =>
    return_if (missing (d_playerId data))
        (writeJson 400 (Failure "Missing playerId")) ;;
    let playerId := default "" (d_playerId data) in
    let* player := ensureOnline playerId in
    match player with
    | None => writeJson 400 (Failure "Unknown player")
    | Some _ =>
      let* b := gets getBoardState in
      writeJson 200 (Success b)
    end
  end.

(** ** Requests, operations and runs *)

Definition holdReq (playerId : string) (squareIndex : Qc) : option Data :=
  Some (mkData (Some playerId) (Some squareIndex)).
Definition idReq (playerId : string) : option Data :=
  Some (mkData (Some playerId) None).

Inductive Op :=
| Join (req : option Data)
| Hold (req : option Data)
| Release (req : option Data)
| GetBoard.

Definition handle (op : Op) : M unit :=
  match op with
  | Join req => handleJoin req
  | Hold req => handleHold req
  | Release req => handleRelease req
  | GetBoard => handleBoard
  end.

(** The requests are served one after the other. *)
Definition run (ops : list Op) (s : Server) : Server :=
  foldl (λ s op, state_after (handle op) s) s ops.

(** ** The states a handler goes through *)

(** The state after lines 646-647 of [handleHold]. *)
Definition assign (playerId : string) (player : Online) (squareIndex : Qc)
    (s : Server) : Server :=
  set_playersOnline (<[playerId := with_squareIndex (Some squareIndex) player]> (playersOnline s))
    (set_occupied (<[squareIndex := o_id player]> (occupied s)) s).

(** The state after lines 670-671 of [handleRelease]. *)
Definition vacate (playerId : string) (player : Online) (idx : Qc) (s : Server) : Server :=
  set_playersOnline (<[playerId := with_squareIndex None player]> (playersOnline s))
    (set_occupied (delete idx (occupied s)) s).

(** The state [completeLevel] leaves. *)
Definition advance (s : Server) : Server :=
  mkServer (foldl creditDirectory (players s) (values (playersOnline s)))
           (currentLevel s + 1) (squaresCount s * 2) ∅
           (with_squareIndex None <$> (creditOnline <$> playersOnline s)).

(** The tail of [handleHold], lines 649-654, from the state [s1] in
    which the square has just been assigned. *)
Definition settle (s1 : Server) : Server * list Event :=
  if checkLevelCompletion s1 then
    (advance s1, [SavePlayers (players (advance s1));
                  WriteJson 200 (Held (getBoardState (advance s1)) true)])
  else (s1, [WriteJson 200 (Held (getBoardState s1) false)]).

Definition inRange (squareIndex : Qc) (s : Server) : Prop :=
  (0 ≤ squareIndex)%Qc ∧ (squareIndex < Qc_of_Z (squaresCount s))%Qc.

Definition outOfRange (squareIndex : Qc) (s : Server) : bool :=
  bool_decide (squareIndex < 0)%Qc || bool_decide (Qc_of_Z (squaresCount s) ≤ squareIndex)%Qc.

(** What [handleHold] does once the player is known to be online, as
    one case distinction. *)
Definition holdFrom (playerId : string) (player : Online) (squareIndex : Qc)
    (s : Server) : Server * list Event :=
  if outOfRange squareIndex s then
    (s, [WriteJson 400 (Failure "Invalid square index")])
  else if bool_decide (Z.of_nat (size (playersOnline s)) ≠ squaresCount s) then
    (s, [WriteJson 403 (Failure "Not enough players to start level")])
  else if holding player then
    (s, [WriteJson 403 (Failure "Player already holds a square")])
  else if truthy (occupied s !! squareIndex) then
    (s, [WriteJson 403 (Failure "Square already occupied")])
  else settle (assign playerId player squareIndex s).

(** ** Predicates of the statements *)

(** The arguments a handler accepts: a truthy [playerId] and, for
    /hold, a number. *)
Definition idArg (req : option Data) : option string :=
  data ← req; playerId ← d_playerId data;
  if decide (playerId = "") then None else Some playerId.

(** The board moved to the next level. *)
Definition levelAdvanced (s s' : Server) : Prop := currentLevel s' ≠ currentLevel s.

Definition isSave (e : Event) : Prop :=
  match e with SavePlayers _ => True | WriteJson _ _ => False end.

(** [hold] passes every check of [handleHold] in state [s] and occupies
    its square; [s1] is the state at that instant, before completion is
    evaluated. *)
Inductive Occupies (s : Server) (req : option Data) (s1 : Server) : Prop :=
| Occupies_intro (data : Data) (playerId : string) (squareIndex : Qc) (player : Online) :
    req = Some data →
    d_playerId data = Some playerId →
    playerId ≠ "" →
    d_squareIndex data = Some squareIndex →
    is_Some (getPlayerById (players s) playerId) →
    playersOnline (state_after (ensureOnline playerId) s) !! playerId = Some player →
    inRange squareIndex s →
    Z.of_nat (size (playersOnline (state_after (ensureOnline playerId) s))) = squaresCount s →
    o_squareIndex player = None →
    truthy (occupied s !! squareIndex) = false →
    s1 = assign playerId player squareIndex (state_after (ensureOnline playerId) s) →
    Occupies s req s1.

(** The counter of a registered player as the leaderboard reads it,
    [p.levelsCompleted || 0]. *)
Definition levelsOf (ps : list Player) (id : string) : option Z :=
  (λ stored, or0 (p_levelsCompleted stored)) <$> getPlayerById ps id.

(** The online player [id] holds a square. *)
Definition holdsSquare (po : gmap string Online) (id : string) : bool :=
  match po !! id with
  | Some p => holding p
  | None => false
  end.

(** Every entry of [playersOnline] is filed under its own id. *)
Definition idsAgree (s : Server) : Prop :=
  ∀ k p, playersOnline s !! k = Some p → o_id p = k.

Definition credits (id : string) (p : Online) : bool :=
  bool_decide (o_id p = id) && holding p.

(** What the specification asks of [occupied] and [playersOnline]. *)
Definition Consistent (s : Server) : Prop :=
  (∀ i q, occupied s !! i = Some q ↔
          ∃ p, playersOnline s !! q = Some p ∧ o_squareIndex p = Some i)
  ∧ (∀ i q q', occupied s !! i = Some q → occupied s !! i = Some q' → q = q')
  ∧ (∀ i j q, occupied s !! i = Some q → occupied s !! j = Some q → i = j)
  ∧ (∀ i q, occupied s !! i = Some q → q ∈ dom (playersOnline s)).

(** The invariant of the server: [Consistent], and the entries of
    [playersOnline] are filed under their own, truthy, id. *)
Record Inv (s : Server) : Prop := mkInv {
  inv_ids : idsAgree s;
  inv_truthy : playersOnline s !! "" = None;
  inv_occupied : ∀ i q, occupied s !! i = Some q ↔
                        ∃ p, playersOnline s !! q = Some p ∧ o_squareIndex p = Some i
}.

(** [b] is the snapshot of the state [s]: the level, the number of
    squares and the occupancy of [s], and one entry for each online
    player, with its id, nickname, country and square. *)
Definition Shows (b : Board) (s : Server) : Prop :=
  b_level b = currentLevel s
  ∧ b_squaresCount b = squaresCount s
  ∧ b_occupied b = occupied s
  ∧ length (b_players b) = size (playersOnline s)
  ∧ ∀ v, v ∈ b_players b ↔
         ∃ k p, playersOnline s !! k = Some p
                ∧ v = mkView (o_id p) (o_nickname p) (o_country p) (o_squareIndex p).

(** The snapshot a response body carries, if any. *)
Definition carried (body : Body) : option Board :=
  match body with
  | Failure _ => None
  | Success b | Held b _ | Plain b => Some b
  end.

Definition holdArgs (req : option Data) : option (string * Qc) :=
  data ← req; playerId ← d_playerId data; squareIndex ← d_squareIndex data;
  if decide (playerId = "") then None else Some (playerId, squareIndex).

(** ** A lobby to run the handlers on *)

Definition registered (id nickname : string) : Player :=
  mkPlayer id nickname (nickname +:+ "@example.org") "secret" "NL" "player" (Some 0).

Definition directory : list Player :=
  [registered "p_1" "ann"; registered "p_2" "bob"; registered "p_3" "cat";
   registered "p_4" "dan"].

Definition half : Qc := Q2Qc (1 # 2).

(** Three, then four, of the registered players have joined. *)
Definition lobby3 : Server :=
  run [Join (idReq "p_1"); Join (idReq "p_2"); Join (idReq "p_3")] (initial directory).
Definition lobby4 : Server := run [Join (idReq "p_4")] lobby3.

(** ** Accounts, the leaderboard and the router *)

(** [String.prototype.toLowerCase] belongs to the JavaScript library.
    The handlers only compare its results, so it is an interface here
    and every statement below holds for whatever function implements
    it. *)
Class Lowercase := toLowerCase : string → string.

(** Lower-casing of the letters A-Z, to run the handlers on examples. *)
Definition asciiLower (c : Ascii.ascii) : Ascii.ascii :=
  let n := Ascii.nat_of_ascii c in
  if bool_decide (65 ≤ n ≤ 90)%nat then Ascii.ascii_of_nat (n + 32) else c.

Fixpoint asciiLowercase (s : string) : string :=
  match s with
  | EmptyString => EmptyString
  | String c s' => String (asciiLower c) (asciiLowercase s')
  end.

(** The body of a /register request, as far as the handler reads it;
    a property is [None] when it is missing. *)
Record Registration := mkRegistration {
  r_nickname : option string;
  r_email : option string;
  r_password : option string;
  r_country : option string
}.

(** A property of a parsed body as [handleLogin] uses its email:
    a string; a missing property or a falsy value that is not a string
    ([null], [false], 0); or a truthy value that is not a string (a
    number, [true], an array, an object). *)
Inductive Json :=
| Str (text : string)
| Falsy
| Truthy.


(** The body of a /login request.  [c_password] is [None] when the
    property is missing or not a string: [user.password !== password]
    is then true. *)
Record Credentials := mkCredentials {
  c_email : Json;
  c_password : option string
}.

(** [const { password: pw, ...withoutPassword } = player] *)
Record Profile := mkProfile {
  f_id : string;
  f_nickname : string;
  f_email : string;
  f_country : string;
  f_role : string;
  f_levelsCompleted : option Z
}.

Definition withoutPassword (p : Player) : Profile :=
  mkProfile (p_id p) (p_nickname p) (p_email p) (p_country p) (p_role p)
            (p_levelsCompleted p).

(** A line of the leaderboard. *)
Record Row := mkRow {
  w_id : string;
  w_nickname : string;
  w_country : string;
  w_levelsCompleted : Z
}.

Inductive AccountBody :=
| Refused (message : string)          (* { success: false, message } *)
| Account (player : Profile)          (* { success: true, player } *)
| Ranking (players : list Row).       (* { players } *)

Inductive AccountEvent :=
| SaveDirectory (content : list Player)        (* savePlayers(players) *)
| Respond (status : Z) (body : AccountBody).   (* writeJson(res, status, body) *)

Instance Player_eq_dec : EqDecision Player.
Proof. solve_decision. Defined.

(** [p.email.toLowerCase() === email.toLowerCase()] *)
Definition sameEmail `{Lowercase} (email : string) (p : Player) : bool :=
  bool_decide (toLowerCase (p_email p) = toLowerCase email).


(** [handleRegister] reads and writes [players] only.  [newId] is the
    value of [generatePlayerId()], which depends on the clock and on
    [Math.random]; it is only used when the registration is accepted. *)
Definition handleRegister `{Lowercase} (newId : string) (req : option Registration)
    (ps : list Player) : list Player * list AccountEvent :=
  match req with
  | None => (ps, [Respond 400 (Refused "Invalid JSON")])
  | Some data =>
    if missing (r_nickname data) || missing (r_email data)
       || missing (r_password data) || missing (r_country data)
    then (ps, [Respond 400 (Refused "Missing required fields")])
    else
      let nickname := default "" (r_nickname data) in
      let email := default "" (r_email data) in
      let password := default "" (r_password data) in
      let country := default "" (r_country data) in
      if existsb (sameEmail email) ps
      then (ps, [Respond 400 (Refused "Email already registered")])
      else
        let player := mkPlayer newId nickname email password country "player" (Some 0) in
        let ps' := ps ++ [player] in
        (ps', [SaveDirectory ps'; Respond 200 (Account (withoutPassword player))])
  end.



Definition row (p : Player) : Row :=
  mkRow (p_id p) (p_nickname p) (p_country p) (or0 (p_levelsCompleted p)).

(** [Array.prototype.sort] with the comparator
    [(a, b) => b.levelsCompleted - a.levelsCompleted] is a stable sort
    by decreasing count; the result of a stable sort does not depend on
    the algorithm, and this is insertion from the right. *)
Fixpoint insertRow (x : Row) (l : list Row) : list Row :=
  match l with
  | [] => [x]
  | y :: l' =>
      if bool_decide (w_levelsCompleted y ≤ w_levelsCompleted x)
      then x :: y :: l'
      else y :: insertRow x l'
  end.

Definition sortRows (l : list Row) : list Row := foldr insertRow [] l.

(** [p.country.toLowerCase() === countryFilter.toLowerCase()] *)
Definition fromCountry `{Lowercase} (countryFilter : string) (p : Player) : bool :=
  bool_decide (toLowerCase (p_country p) = toLowerCase countryFilter).

(** The rows [handleLeaderboard] answers with; [countryFilter] is
    [urlObj.searchParams.get('country')], [None] when the parameter is
    absent. *)
Definition leaderboard `{Lowercase} (countryFilter : option string) (ps : list Player)
    : list Row :=
  let filtered :=
    if truthy countryFilter
    then List.filter (fromCountry (default "" countryFilter)) ps
    else ps in
  sortRows (row <$> filtered).

Definition handleLeaderboard `{Lowercase} (countryFilter : option string)
    (ps : list Player) : list AccountEvent :=
  [Respond 200 (Ranking (leaderboard countryFilter ps))].

(** What [handleRequest] hands the request to. *)
Inductive Route :=
| Preflight | ToRegister | ToLogin | ToLeaderboard | ToBoard | ToJoin | ToHold
| ToRelease | ToStatic.

Definition handleRequest (method reqUrl : string) : Route :=
  if bool_decide (method = "OPTIONS") then Preflight
  else if String.prefix "/register" reqUrl && bool_decide (method = "POST") then ToRegister
  else if String.prefix "/login" reqUrl && bool_decide (method = "POST") then ToLogin
  else if String.prefix "/leaderboard" reqUrl && bool_decide (method = "GET") then ToLeaderboard
  else if String.prefix "/board" reqUrl && bool_decide (method = "GET") then ToBoard
  else if String.prefix "/join" reqUrl && bool_decide (method = "POST") then ToJoin
  else if String.prefix "/hold" reqUrl && bool_decide (method = "POST") then ToHold
  else if String.prefix "/release" reqUrl && bool_decide (method = "POST") then ToRelease
  else ToStatic.

(** ** The whole server *)

(** A request to the game or to the accounts. *)
Inductive Action :=
| Game (op : Op)
| Register (newId : string) (req : option Registration)
| Login (req : option Credentials)
| Leaderboard (countryFilter : option string).

Definition act `{Lowercase} (a : Action) (s : Server) : Server :=
  match a with
  | Game op => state_after (handle op) s
  | Register newId req => set_players (handleRegister newId req (players s)).1 s
  | Login _ | Leaderboard _ => s
  end.

Definition serve `{Lowercase} (acts : list Action) (s : Server) : Server :=
  foldl (λ s a, act a s) s acts.

(** ** Predicates of the further statements *)

(** The online copy of a player's counter is the directory's. *)
Definition Synced (s : Server) : Prop :=
  ∀ k p, playersOnline s !! k = Some p →
         levelsOf (players s) k = Some (o_levelsCompleted p).

(** Every key of [occupied] is within the board. *)
Definition KeysInRange (s : Server) : Prop :=
  ∀ i q, occupied s !! i = Some q → inRange i s.

(** The board of level [currentLevel] has 4 * 2^(currentLevel-1) squares. *)
Definition BoardShape (s : Server) : Prop :=
  1 ≤ currentLevel s ∧ squaresCount s = 4 * 2 ^ (currentLevel s - 1).

(** [s'] keeps every online player of [s], with the same identity. *)
Definition KeepsOnline (s s' : Server) : Prop :=
  ∀ k p, playersOnline s !! k = Some p →
    ∃ p', playersOnline s' !! k = Some p'
          ∧ o_id p' = o_id p ∧ o_nickname p' = o_nickname p
          ∧ o_country p' = o_country p ∧ o_role p' = o_role p
          ∧ o_levelsCompleted p ≤ o_levelsCompleted p'.

(** What the game never changes in a directory entry. *)
Definition account (p : Player) : string * string * string * string * string * string :=
  (p_id p, p_nickname p, p_email p, p_password p, p_country p, p_role p).

(** The lower-cased emails of the directory are pairwise different. *)
Definition UniqueEmails `{Lowercase} (ps : list Player) : Prop :=
  NoDup ((λ p, toLowerCase (p_email p)) <$> ps).

(** More players are online than the board has squares. *)
Definition Oversubscribed (s : Server) : Prop :=
  squaresCount s < Z.of_nat (size (playersOnline s)).

(** The elementary changes of state the game handlers are made of,
    each with the conditions under which a handler performs it: lines
    602-611 of [ensureOnline], 646-647 of [handleHold], [completeLevel]
    and 670-671 of [handleRelease]. *)
Inductive GameMove (s : Server) : Server → Prop :=
| Move_enrol (playerId : string) (stored : Player) :
    playerId ≠ "" →
    getPlayerById (players s) playerId = Some stored →
    playersOnline s !! playerId = None →
    GameMove s (set_playersOnline (<[playerId := fresh stored]> (playersOnline s)) s)
| Move_assign (playerId : string) (player : Online) (squareIndex : Qc) :
    playersOnline s !! playerId = Some player →
    o_squareIndex player = None →
    inRange squareIndex s →
    Z.of_nat (size (playersOnline s)) = squaresCount s →
    truthy (occupied s !! squareIndex) = false →
    GameMove s (assign playerId player squareIndex s)
| Move_advance :
    checkLevelCompletion s = true →
    GameMove s (advance s)
| Move_vacate (playerId : string) (player : Online) (idx : Qc) :
    playersOnline s !! playerId = Some player →
    o_squareIndex player = Some idx →
    GameMove s (vacate playerId player idx s).

(** The changes of the whole server: those of the game and line 544 of
    [handleRegister]. *)
Inductive Move (s : Server) : Server → Prop :=
| Move_game (s' : Server) :
    GameMove s s' → Move s s'
| Move_register (player : Player) :
    p_levelsCompleted player = Some 0 →
    Move s (set_players (players s ++ [player]) s).

(** A fifth player registers and joins the lobby of four. *)
Definition eve : Registration :=
  mkRegistration (Some "eve") (Some "Eve@Example.org") (Some "pw") (Some "NL").
Definition crowd : Server :=
  serve (H := asciiLowercase) [Register "p_5" (Some eve); Game (Join (idReq "p_5"))] lobby4.

(** Three of the four players hold a square; then the fourth does. *)
Definition almost : Server :=
  run [Hold (holdReq "p_1" (Qc_of_Z 0)); Hold (holdReq "p_2" (Qc_of_Z 1));
       Hold (holdReq "p_3" (Qc_of_Z 2))] lobby4.
Definition level2 : Server := run [Hold (holdReq "p_4" (Qc_of_Z 3))] almost.

(** Row [a] may stand before row [b] in the ranking. *)
Definition ranksBefore (a b : Row) : Prop := w_levelsCompleted b ≤ w_levelsCompleted a.

(** The rows of [l] with [n] levels completed, in the order of [l]. *)
Definition tied (n : Z) (l : list Row) : list Row :=
  filter (λ r, w_levelsCompleted r = n) l.

(** ** The client's reading of a snapshot

    The part of [updateBoard] (lines 177-188) that decides, from the
    snapshot alone, what a square shows and whether it can be pressed.
    The loop variable [i] is an integer; the client is logged in. *)

(** [board.players.find((p) => p.id === occupantId)] *)
Fixpoint findPlayer (vs : list PlayerView) (occupantId : string) : option PlayerView :=
  match vs with
  | [] => None
  | v :: vs' => if decide (v_id v = occupantId) then Some v else findPlayer vs' occupantId
  end.

(** The text of square [i]: [None] when the square is left empty. *)
Definition squareText (board : Board) (i : Z) : option string :=
  let occupantId := b_occupied board !! Qc_of_Z i in
  if truthy occupantId then
    Some match findPlayer (b_players board) (default "" occupantId) with
         | Some occupant => v_nickname occupant
         | None => "Occupied"
         end
  else None.

(** Whether square [i] gets the pointerdown listener that sends /hold. *)
Definition offersHold (board : Board) (i : Z) : bool :=
  negb (truthy (b_occupied board !! Qc_of_Z i))
  && bool_decide (Z.of_nat (length (b_players board)) = b_squaresCount board).

(** ** Running the handlers *)

Ltac unfold_handler :=
  unfold state_after, effects, exec, handleBoard, handleJoin, handleHold, handleRelease,
    ensureOnline, completeLevel, return_if, writeJson, bind, gets, modify, emit,
    leave, ret, missing, truthy.

Lemma getPlayerById_id ps id stored :
  getPlayerById ps id = Some stored → p_id stored = id.
Proof.
  induction ps as [|p ps IH]; simpl; [done|].
  case_decide; [congruence | done].
Qed.

Lemma ensureOnline_unknown s playerId :
  getPlayerById (players s) playerId = None →
  ensureOnline playerId s = (Some None, s, []).
Proof. intros H. unfold_handler. by rewrite H. Qed.

Lemma ensureOnline_new s playerId stored :
  getPlayerById (players s) playerId = Some stored →
  playersOnline s !! playerId = None →
  ensureOnline playerId s =
    (Some (Some (fresh stored)),
     set_playersOnline (<[playerId := fresh stored]> (playersOnline s)) s, []).
Proof.
  intros H1 H2. unfold_handler. rewrite H1. cbn.
  rewrite bool_decide_eq_true_2 by done. cbn.
  by rewrite lookup_insert_eq.
Qed.

Lemma ensureOnline_old s playerId stored player :
  getPlayerById (players s) playerId = Some stored →
  playersOnline s !! playerId = Some player →
  ensureOnline playerId s = (Some (Some player), s, []).
Proof.
  intros H1 H2. unfold_handler. rewrite H1. cbn.
  rewrite bool_decide_eq_false_2 by congruence. cbn.
  by rewrite H2.
Qed.

Lemma completeLevel_run s :
  completeLevel s = (Some tt, advance s, [SavePlayers (players (advance s))]).
Proof. reflexivity. Qed.

Lemma outOfRange_false squareIndex s :
  outOfRange squareIndex s = false ↔ inRange squareIndex s.
Proof.
  unfold outOfRange, inRange. rewrite orb_false_iff, !bool_decide_eq_false.
  split; intros [H1 H2]; split.
  - by apply Qcnot_lt_le.
  - by apply Qcnot_le_lt.
  - by apply Qcle_not_lt.
  - by apply Qclt_not_le.
Qed.

Lemma present_id playerId : playerId ≠ "" → missing (Some playerId) = false.
Proof. intros H. unfold missing, truthy. by rewrite bool_decide_eq_true_2. Qed.

Lemma handleHold_run s data playerId squareIndex :
  d_playerId data = Some playerId → playerId ≠ "" →
  d_squareIndex data = Some squareIndex →
  exec (handleHold (Some data)) s =
    match getPlayerById (players s) playerId with
    | None => (s, [WriteJson 400 (Failure "Unknown player")])
    | Some stored =>
        match playersOnline s !! playerId with
        | Some player => holdFrom playerId player squareIndex s
        | None =>
            holdFrom playerId (fresh stored) squareIndex
              (set_playersOnline (<[playerId := fresh stored]> (playersOnline s)) s)
        end
    end.
Proof.
  intros Hp Hne Hs.
  assert (Hstep : ∀ s0 player, ensureOnline playerId s = (Some (Some player), s0, []) →
            exec (handleHold (Some data)) s = holdFrom playerId player squareIndex s0).
  { intros s0 player He. unfold handleHold, exec, bind at 1, return_if.
    rewrite Hp, Hs, (present_id _ Hne). cbn [orb default from_option id].
    rewrite bool_decide_eq_false_2 by done. unfold ret at 1, bind at 1. rewrite He.
    unfold holdFrom, settle, outOfRange, return_if, writeJson, bind, gets, modify, emit, leave, ret.
    cbn. destruct (bool_decide (squareIndex < 0)%Qc || _); [done|].
    destruct (bool_decide (Z.of_nat (size (playersOnline s0)) ≠ _)); [done|].
    destruct (holding player); [done|].
    destruct (truthy (occupied s0 !! squareIndex)); [done|].
    cbn. fold (assign playerId player squareIndex s0).
    destruct (checkLevelCompletion _); reflexivity. }
  destruct (getPlayerById (players s) playerId) as [stored|] eqn:Hg.
  - destruct (playersOnline s !! playerId) as [player|] eqn:Ho.
    + apply Hstep. by eapply ensureOnline_old.
    + apply Hstep. by eapply ensureOnline_new.
  - unfold handleHold, exec, bind at 1, return_if.
    rewrite Hp, Hs, (present_id _ Hne). cbn [orb default from_option id].
    rewrite bool_decide_eq_false_2 by done. unfold ret at 1, bind at 1.
    rewrite (ensureOnline_unknown _ _ Hg). reflexivity.
Qed.

Lemma handleJoin_run s data playerId :
  d_playerId data = Some playerId → playerId ≠ "" →
  exec (handleJoin (Some data)) s =
    match getPlayerById (players s) playerId with
    | None => (s, [WriteJson 400 (Failure "Unknown player")])
    | Some stored =>
        match playersOnline s !! playerId with
        | Some _ => (s, [WriteJson 200 (Success (getBoardState s))])
        | None =>
            let s' := set_playersOnline (<[playerId := fresh stored]> (playersOnline s)) s in
            (s', [WriteJson 200 (Success (getBoardState s'))])
        end
    end.
Proof.
  intros Hp Hne. unfold handleJoin, exec, bind at 1, return_if.
  rewrite Hp, (present_id _ Hne). cbn [default from_option id].
  unfold ret at 1, bind at 1.
  destruct (getPlayerById (players s) playerId) as [stored|] eqn:Hg.
  - destruct (playersOnline s !! playerId) as [player|] eqn:Ho.
    + by rewrite (ensureOnline_old _ _ _ _ Hg Ho).
    + by rewrite (ensureOnline_new _ _ _ Hg Ho).
  - by rewrite (ensureOnline_unknown _ _ Hg).
Qed.

Lemma handleRelease_run s data playerId :
  d_playerId data = Some playerId → playerId ≠ "" →
  exec (handleRelease (Some data)) s =
    match playersOnline s !! playerId with
    | None =>
        if bool_decide (playerId ∈ objectPrototype)
        then (s, [WriteJson 200 (Success (getBoardState s))])
        else (s, [WriteJson 400 (Failure "Player not online")])
    | Some player =>
        match o_squareIndex player with
        | Some idx =>
            let s' := vacate playerId player idx s in
            (s', [WriteJson 200 (Success (getBoardState s'))])
        | None => (s, [WriteJson 200 (Success (getBoardState s))])
        end
    end.
Proof.
  intros Hp Hne. unfold handleRelease, exec, bind at 1, return_if.
  rewrite Hp, (present_id _ Hne). cbn [default from_option id].
  unfold ret at 1, bind at 1, gets at 1, member.
  destruct (playersOnline s !! playerId) as [player|].
  - destruct (o_squareIndex player); reflexivity.
  - destruct (bool_decide (playerId ∈ objectPrototype)); reflexivity.
Qed.

Lemma getBoardState_shows s : Shows (getBoardState s) s.
Proof.
  split; [done|]. split; [done|]. split; [done|]. split.
  - cbn. unfold values. by rewrite !length_fmap, length_map_to_list.
  - intros v. cbn. unfold values. rewrite list_elem_of_fmap. split.
    + intros (p & -> & ([k p'] & -> & Hkp)%list_elem_of_fmap).
      apply elem_of_map_to_list in Hkp. by exists k, p'.
    + intros (k & p & Hkp & ->). exists p. split; [done|].
      apply list_elem_of_fmap. exists (k, p). split; [done|].
      by apply elem_of_map_to_list.
Qed.

Lemma idArg_Some req playerId :
  idArg req = Some playerId →
  ∃ data, req = Some data ∧ d_playerId data = Some playerId ∧ playerId ≠ "".
Proof.
  unfold idArg. destruct req as [data|]; [|done]. cbn.
  destruct (d_playerId data) as [p|] eqn:Hd; [|done]. cbn.
  case_decide; [done|]. intros [= <-]. eauto.
Qed.

Lemma holdArgs_Some req playerId squareIndex :
  holdArgs req = Some (playerId, squareIndex) →
  ∃ data, req = Some data ∧ d_playerId data = Some playerId ∧ playerId ≠ "" ∧
          d_squareIndex data = Some squareIndex.
Proof.
  unfold holdArgs. destruct req as [data|]; [|done]. cbn.
  destruct (d_playerId data) as [p|] eqn:Hd; [|done]. cbn.
  destruct (d_squareIndex data) as [q|] eqn:Hq; [|done]. cbn.
  case_decide; [done|]. intros [= <- <-]. eauto.
Qed.

Lemma handleHold_rejected s req :
  holdArgs req = None →
  ∃ msg, exec (handleHold req) s = (s, [WriteJson 400 (Failure msg)]).
Proof.
  unfold holdArgs. destruct req as [data|]; [|by eexists]. cbn.
  unfold handleHold, exec, bind at 1, return_if, missing, truthy.
  destruct (d_playerId data) as [p|]; [|by eexists]. cbn.
  destruct (d_squareIndex data) as [q|]; cbn.
  - case_decide as Hp; [|done]. intros _. subst p. by eexists.
  - intros _. destruct (bool_decide (p ≠ "")); by eexists.
Qed.

Lemma handleJoin_rejected s req :
  idArg req = None →
  ∃ msg, exec (handleJoin req) s = (s, [WriteJson 400 (Failure msg)]).
Proof.
  unfold idArg. destruct req as [data|]; [|by eexists]. cbn.
  unfold handleJoin, exec, bind at 1, return_if, missing, truthy.
  destruct (d_playerId data) as [p|]; [|by eexists]. cbn.
  case_decide as Hp; [|done]. intros _. subst p. by eexists.
Qed.

Lemma handleRelease_rejected s req :
  idArg req = None →
  ∃ msg, exec (handleRelease req) s = (s, [WriteJson 400 (Failure msg)]).
Proof.
  unfold idArg. destruct req as [data|]; [|by eexists]. cbn.
  unfold handleRelease, exec, bind at 1, return_if, missing, truthy.
  destruct (d_playerId data) as [p|]; [|by eexists]. cbn.
  case_decide as Hp; [|done]. intros _. subst p. by eexists.
Qed.

Lemma handleBoard_run s :
  exec handleBoard s = (s, [WriteJson 200 (Plain (getBoardState s))]).
Proof. reflexivity. Qed.

(** * The properties *)

(** For an integer index, the check of line 630 is 0..squaresCount-1. *)
Lemma inRange_integer (z : Z) (s : Server) :
  inRange (Qc_of_Z z) s ↔ 0 ≤ z ≤ squaresCount s - 1.
Proof.
  unfold inRange, Qcle, Qclt, Qle, Qlt. cbn.
  change (Qred 0) with 0%Q. cbn. lia.
Qed.

Lemma holdFrom_case playerId player squareIndex s :
  let r := holdFrom playerId player squareIndex s in
  (¬ inRange squareIndex s → r = (s, [WriteJson 400 (Failure "Invalid square index")]))
  ∧ (inRange squareIndex s → Z.of_nat (size (playersOnline s)) ≠ squaresCount s →
       r = (s, [WriteJson 403 (Failure "Not enough players to start level")]))
  ∧ (inRange squareIndex s → Z.of_nat (size (playersOnline s)) = squaresCount s →
       o_squareIndex player ≠ None →
       r = (s, [WriteJson 403 (Failure "Player already holds a square")]))
  ∧ (inRange squareIndex s → Z.of_nat (size (playersOnline s)) = squaresCount s →
       o_squareIndex player = None → truthy (occupied s !! squareIndex) = true →
       r = (s, [WriteJson 403 (Failure "Square already occupied")]))
  ∧ (inRange squareIndex s → Z.of_nat (size (playersOnline s)) = squaresCount s →
       o_squareIndex player = None → truthy (occupied s !! squareIndex) = false →
       r = settle (assign playerId player squareIndex s)).
Proof.
  unfold holdFrom, holding. cbn zeta.
  destruct (outOfRange squareIndex s) eqn:Hr.
  { assert (¬ inRange squareIndex s) by (rewrite <- outOfRange_false; congruence).
    repeat split; intros; done. }
  apply outOfRange_false in Hr.
  split; [done|].
  case_bool_decide as Hn; [repeat split; intros; done|].
  try apply dec_stable in Hn.
  split; [done|].
  case_bool_decide as Hh; [repeat split; intros; done|].
  try apply dec_stable in Hh.
  split; [done|].
  destruct (truthy (occupied s !! squareIndex)); split; intros; done.
Qed.

(** C7. [join(playerId)] answers Unknown player when the id is not in
    the directory.  Otherwise a player who is not online yet gets one
    new entry under its id, made of the id, nickname, country and role
    of the directory entry, its count of levels (0 if missing) and no
    square held; the other entries, the board and the directory are
    untouched.  A player who is online already is left exactly as it is
    (no second entry, the held square and the other fields are kept).
    In both cases the answer is 200 with the snapshot of the state the
    call leaves: its level, number of squares and occupancy, and one
    entry for each online player, the caller among them.  Joining twice
    in a row is the same as joining once. *)
Theorem join_idempotent (s : Server) (data : Data) (playerId : string) :
  d_playerId data = Some playerId → playerId ≠ "" →
  let r := exec (handleJoin (Some data)) s in
  (getPlayerById (players s) playerId = None →
     r = (s, [WriteJson 400 (Failure "Unknown player")]))
  ∧ (∀ stored, getPlayerById (players s) playerId = Some stored →
       playersOnline s !! playerId = None →
       let entry := mkOnline (p_id stored) (p_nickname stored) (p_country stored)
                             (p_role stored) (default 0 (p_levelsCompleted stored)) None in
       let s' := mkServer (players s) (currentLevel s) (squaresCount s) (occupied s)
                          (<[playerId := entry]> (playersOnline s)) in
       r = (s', [WriteJson 200 (Success (getBoardState s'))])
       ∧ Shows (getBoardState s') s'
       ∧ mkView playerId (p_nickname stored) (p_country stored) None
           ∈ b_players (getBoardState s')
       ∧ p_id stored = playerId
       ∧ playersOnline s' !! playerId = Some entry
       ∧ (∀ other, other ≠ playerId → playersOnline s' !! other = playersOnline s !! other)
       ∧ size (playersOnline s') = S (size (playersOnline s)))
  ∧ (∀ stored player, getPlayerById (players s) playerId = Some stored →
       playersOnline s !! playerId = Some player →
       r = (s, [WriteJson 200 (Success (getBoardState s))])
       ∧ Shows (getBoardState s) s
       ∧ mkView (o_id player) (o_nickname player) (o_country player) (o_squareIndex player)
           ∈ b_players (getBoardState s))
  ∧ exec (handleJoin (Some data)) r.1 = r.
Proof.
  intros Hp Hne r. subst r. rewrite (handleJoin_run _ _ _ Hp Hne).
  split; [|split; [|split]].
  - by intros ->.
  - intros stored Hg Ho. rewrite Hg, Ho. cbn zeta.
    pose proof (getPlayerById_id _ _ _ Hg) as Hid.
    split; [done|]. split; [apply getBoardState_shows|].
    split; [|split; [done|]].
    { apply getBoardState_shows. eexists playerId, _. split; [apply lookup_insert_eq|].
      cbn. by rewrite Hid. }
    cbn. split; [apply lookup_insert_eq|].
    split; [intros other Hother; by apply lookup_insert_ne|].
    by apply map_size_insert_None.
  - intros stored player -> Ho. rewrite Ho. split; [done|].
    split; [apply getBoardState_shows|].
    apply getBoardState_shows. by exists playerId, player.
  - destruct (getPlayerById (players s) playerId) as [stored|] eqn:Hg.
    + destruct (playersOnline s !! playerId) as [player|] eqn:Ho; cbn [fst].
      * by rewrite (handleJoin_run _ _ _ Hp Hne), Hg, Ho.
      * rewrite (handleJoin_run _ _ _ Hp Hne).
        cbn [players set_playersOnline playersOnline].
        by rewrite Hg, lookup_insert_eq.
    + cbn [fst]. by rewrite (handleJoin_run _ _ _ Hp Hne), Hg.
Qed.

Lemma join_idempotent_witness :
  let ann := mkOnline "p_1" "ann" "NL" "player" 0 None in
  let s' := mkServer directory 1 4 ∅ {[ "p_1" := ann ]} in
  let b := mkBoard 1 4 ∅ [mkView "p_1" "ann" "NL" None] in
  exec (handleJoin (idReq "p_1")) (initial directory) = (s', [WriteJson 200 (Success b)])
  ∧ Shows b s'
  ∧ exec (handleJoin (idReq "p_1")) s' = (s', [WriteJson 200 (Success b)])
  ∧ exec (handleJoin (idReq "p_9")) s' = (s', [WriteJson 400 (Failure "Unknown player")]).
Proof.
  cbn zeta.
  pose proof (join_idempotent (initial directory) (mkData (Some "p_1") None) "p_1"
                eq_refl ltac:(done)) as (_ & Hnew & _ & _).
  pose proof (join_idempotent
                (mkServer directory 1 4 ∅ {[ "p_1" := mkOnline "p_1" "ann" "NL" "player" 0 None ]})
                (mkData (Some "p_1") None) "p_1" eq_refl ltac:(done)) as (_ & _ & Hold & _).
  pose proof (join_idempotent
                (mkServer directory 1 4 ∅ {[ "p_1" := mkOnline "p_1" "ann" "NL" "player" 0 None ]})
                (mkData (Some "p_9") None) "p_9" eq_refl ltac:(done)) as (Hunknown & _).
  destruct (Hnew (registered "p_1" "ann")) as (Hr & Hs & _); [reflexivity | reflexivity |].
  destruct (Hold (registered "p_1" "ann") (mkOnline "p_1" "ann" "NL" "player" 0 None))
    as (Hr' & _); [reflexivity | by vm_compute |].
  split; [etrans; [exact Hr|]; by vm_compute|].
  split; [exact Hs|].
  split; [etrans; [exact Hr'|]; by vm_compute|].
  apply Hunknown. reflexivity.
Defined.

(** C6.  What [release(playerId)] does in each case.  A player who is
    online and holds no square gets the snapshot and nothing changes; a
    player who holds square [idx] has [occupied[idx]] deleted and its
    square set to null, nothing else changes, and the answer carries
    the snapshot of the new state; a release that follows a release by
    an online player changes nothing.  An identifier that is not in
    [playersOnline] is answered Player not online, with the state
    unchanged, unless it names a member that [playersOnline] inherits
    from [Object.prototype]: line 666 then finds that member, line 667
    lets it through, and the answer is 200 with the snapshot, as if the
    caller were an online player who holds nothing. *)
Theorem release_cases (s : Server) (data : Data) (playerId : string) :
  d_playerId data = Some playerId → playerId ≠ "" →
  let r := exec (handleRelease (Some data)) s in
  (playersOnline s !! playerId = None → playerId ∉ objectPrototype →
     r = (s, [WriteJson 400 (Failure "Player not online")]))
  ∧ (playersOnline s !! playerId = None → playerId ∈ objectPrototype →
     r = (s, [WriteJson 200 (Success (getBoardState s))])
     ∧ r ≠ (s, [WriteJson 400 (Failure "Player not online")]))
  ∧ (∀ player, playersOnline s !! playerId = Some player → o_squareIndex player = None →
       r = (s, [WriteJson 200 (Success (getBoardState s))]))
  ∧ (∀ player idx, playersOnline s !! playerId = Some player →
       o_squareIndex player = Some idx →
       let entry := mkOnline (o_id player) (o_nickname player) (o_country player)
                             (o_role player) (o_levelsCompleted player) None in
       let s' := mkServer (players s) (currentLevel s) (squaresCount s)
                          (delete idx (occupied s))
                          (<[playerId := entry]> (playersOnline s)) in
       r = (s', [WriteJson 200 (Success (getBoardState s'))])
       ∧ occupied s' !! idx = None
       ∧ (∀ i, i ≠ idx → occupied s' !! i = occupied s !! i)
       ∧ playersOnline s' !! playerId = Some entry
       ∧ (∀ other, other ≠ playerId → playersOnline s' !! other = playersOnline s !! other))
  ∧ (is_Some (playersOnline s !! playerId) →
       exec (handleRelease (Some data)) r.1 = (r.1, [WriteJson 200 (Success (getBoardState r.1))]))
  ∧ Shows (getBoardState r.1) r.1
  ∧ (∀ name, name ∈ objectPrototype ↔
       name ∈ ["constructor"; "__defineGetter__"; "__defineSetter__"; "hasOwnProperty";
               "__lookupGetter__"; "__lookupSetter__"; "isPrototypeOf";
               "propertyIsEnumerable"; "toString"; "valueOf"; "__proto__";
               "toLocaleString"]).
Proof.
  intros Hp Hne r. subst r. rewrite (handleRelease_run _ _ _ Hp Hne).
  split; [|split; [|split; [|split; [|split; [|split]]]]].
  - intros -> Hn. by rewrite bool_decide_eq_false_2.
  - intros -> Hn. by rewrite bool_decide_eq_true_2.
  - by intros player -> ->.
  - intros player idx -> ->. cbn zeta. split; [done|]. cbn.
    split; [apply lookup_delete_eq|].
    split; [intros i Hi; by apply lookup_delete_ne|].
    split; [apply lookup_insert_eq|].
    intros other Ho. by apply lookup_insert_ne.
  - intros [player Ho]. rewrite Ho.
    destruct (o_squareIndex player) as [idx|] eqn:Hi; cbn [fst].
    + rewrite (handleRelease_run _ _ _ Hp Hne).
      cbn [vacate playersOnline set_playersOnline].
      by rewrite lookup_insert_eq.
    + by rewrite (handleRelease_run _ _ _ Hp Hne), Ho, Hi.
  - apply getBoardState_shows.
  - done.
Qed.

Lemma release_cases_witness :
  let held := run [Hold (holdReq "p_1" (Qc_of_Z 2))] lobby4 in
  let b := getBoardState lobby4 in
  occupied held !! Qc_of_Z 2 = Some "p_1"
  ∧ exec (handleRelease (idReq "p_1")) held = (lobby4, [WriteJson 200 (Success b)])
  ∧ exec (handleRelease (idReq "p_1")) lobby4 = (lobby4, [WriteJson 200 (Success b)])
  ∧ exec (handleRelease (idReq "p_4")) lobby3
      = (lobby3, [WriteJson 400 (Failure "Player not online")])
  ∧ playersOnline lobby4 !! "constructor" = None
  ∧ exec (handleRelease (idReq "constructor")) lobby4
      = (lobby4, [WriteJson 200 (Success b)])
  ∧ b_level b = 1 ∧ b_squaresCount b = 4 ∧ b_occupied b = ∅
  ∧ b_players b ≡ₚ [mkView "p_1" "ann" "NL" None; mkView "p_2" "bob" "NL" None;
                    mkView "p_3" "cat" "NL" None; mkView "p_4" "dan" "NL" None].
Proof.
  pose proof (release_cases (run [Hold (holdReq "p_1" (Qc_of_Z 2))] lobby4)
                (mkData (Some "p_1") None) "p_1" eq_refl ltac:(done)) as (_ & _ & _ & Hheld & _).
  pose proof (release_cases lobby4 (mkData (Some "p_1") None) "p_1" eq_refl ltac:(done))
    as (_ & _ & Hfree & _).
  pose proof (release_cases lobby3 (mkData (Some "p_4") None) "p_4" eq_refl ltac:(done))
    as (Hoff & _).
  pose proof (release_cases lobby4 (mkData (Some "constructor") None) "constructor"
                eq_refl ltac:(done)) as (_ & Hproto & _).
  split; [by vm_compute|].
  split; [|split; [|split; [|split; [|split; [|split; [|split; [|split]]]]]]].
  - destruct (Hheld (with_squareIndex (Some (Qc_of_Z 2)) (fresh (registered "p_1" "ann")))
                (Qc_of_Z 2)) as (Hr & _); [by vm_compute | done |].
    etrans; [exact Hr|]. by vm_compute.
  - apply (Hfree (fresh (registered "p_1" "ann"))); by vm_compute.
  - apply Hoff; [by vm_compute|]. apply (bool_decide_eq_false_1 _). by vm_compute.
  - by vm_compute.
  - destruct Hproto as (Hr & _); [by vm_compute | |].
    { apply (bool_decide_eq_true_1 _). by vm_compute. }
    exact Hr.
  - by vm_compute.
  - by vm_compute.
  - by vm_compute.
  - apply (bool_decide_eq_true_1 _). by vm_compute.
Defined.

(** C3, as the specification states it: a hold by a player who is not
    in [playersOnline] is refused as not online and changes nothing.
    It fails for a registered player who has not joined: [handleHold]
    puts the player in [playersOnline] and goes on to the other checks. *)
Lemma hold_offline_counterexample :
  playersOnline (initial directory) !! "p_1" = None
  ∧ exec (handleHold (holdReq "p_1" (Qc_of_Z 0))) (initial directory)
      = (run [Join (idReq "p_1")] (initial directory),
         [WriteJson 403 (Failure "Not enough players to start level")])
  ∧ exec (handleHold (holdReq "p_1" (Qc_of_Z 0))) (initial directory)
      ≠ (initial directory, [WriteJson 400 (Failure "Player not online")]).
Proof. split; [done|]. split; [by vm_compute|]. by vm_compute. Qed.

(** C3, amended.  A hold by a player who is not in the directory is
    refused with Unknown player, whatever the square, the board and the
    lobby are (so this is the first check on the player), and the state
    is unchanged: [playersOnline], the board and the directory. *)
Theorem hold_unknown_player (s : Server) (data : Data) (playerId : string)
    (squareIndex : Qc) :
  d_playerId data = Some playerId → playerId ≠ "" →
  d_squareIndex data = Some squareIndex →
  getPlayerById (players s) playerId = None →
  exec (handleHold (Some data)) s = (s, [WriteJson 400 (Failure "Unknown player")]).
Proof.
  intros Hp Hne Hs Hg. by rewrite (handleHold_run _ _ _ _ Hp Hne Hs), Hg.
Qed.

Lemma hold_unknown_player_witness :
  getPlayerById (players lobby4) "p_9" = None
  ∧ exec (handleHold (holdReq "p_9" (Qc_of_Z 9))) lobby4
      = (lobby4, [WriteJson 400 (Failure "Unknown player")]).
Proof.
  split; [reflexivity|].
  apply (hold_unknown_player lobby4 (mkData (Some "p_9") (Some (Qc_of_Z 9))) "p_9" (Qc_of_Z 9));
    [reflexivity | done | reflexivity | reflexivity].
Defined.

(** C9. A hold by a registered player who is not online puts the
    player in [playersOnline], holding nothing, before any other check:
    the rest of the handler runs in the enlarged state, the head count
    of the admission check is the enlarged one, and the entry stays when
    the call is refused for the square index, for the head count or
    because the square is taken. *)
Theorem hold_enrolls_registered (s : Server) (data : Data) (playerId : string)
    (squareIndex : Qc) (stored : Player) :
  d_playerId data = Some playerId → playerId ≠ "" →
  d_squareIndex data = Some squareIndex →
  getPlayerById (players s) playerId = Some stored →
  playersOnline s !! playerId = None →
  let s0 := set_playersOnline (<[playerId := fresh stored]> (playersOnline s)) s in
  let r := exec (handleHold (Some data)) s in
  playersOnline s0 !! playerId = Some (fresh stored)
  ∧ o_squareIndex (fresh stored) = None
  ∧ size (playersOnline s0) = S (size (playersOnline s))
  ∧ r = holdFrom playerId (fresh stored) squareIndex s0
  ∧ (¬ inRange squareIndex s →
       r = (s0, [WriteJson 400 (Failure "Invalid square index")]))
  ∧ (inRange squareIndex s → Z.of_nat (S (size (playersOnline s))) ≠ squaresCount s →
       r = (s0, [WriteJson 403 (Failure "Not enough players to start level")]))
  ∧ (inRange squareIndex s → Z.of_nat (S (size (playersOnline s))) = squaresCount s →
       truthy (occupied s !! squareIndex) = true →
       r = (s0, [WriteJson 403 (Failure "Square already occupied")]))
  ∧ (∀ status msg, r.2 = [WriteJson status (Failure msg)] → r.1 = s0 ∧ r.1 ≠ s).
Proof.
  intros Hp Hne Hs Hg Ho s0 r.
  assert (Hsize : size (playersOnline s0) = S (size (playersOnline s)))
    by (by apply map_size_insert_None).
  assert (Hr : r = holdFrom playerId (fresh stored) squareIndex s0)
    by (subst r; by rewrite (handleHold_run _ _ _ _ Hp Hne Hs), Hg, Ho).
  assert (Hdiff : s0 ≠ s).
  { intros E. apply (f_equal (λ x, playersOnline x !! playerId)) in E.
    cbn in E. rewrite lookup_insert_eq, Ho in E. done. }
  destruct (holdFrom_case playerId (fresh stored) squareIndex s0)
    as (H1 & H2 & _ & H4 & H5).
  rewrite <- Hr in H1, H2, H4, H5. rewrite Hsize in H2, H4, H5.
  split; [apply lookup_insert_eq|]. split; [done|]. split; [done|]. split; [done|].
  split; [exact H1|]. split; [exact H2|]. split; [by intros; apply H4|].
  intros status msg He.
  destruct (decide (inRange squareIndex s)) as [Hin|Hout].
  - destruct (decide (Z.of_nat (S (size (playersOnline s))) = squaresCount s)) as [Hn|Hn].
    + destruct (truthy (occupied s !! squareIndex)) eqn:Ht.
      * rewrite (H4 Hin Hn eq_refl Ht). done.
      * rewrite (H5 Hin Hn eq_refl Ht) in He. exfalso. revert He. unfold settle.
        destruct (checkLevelCompletion _); done.
    + rewrite (H2 Hin Hn). done.
  - rewrite (H1 Hout). done.
Qed.

(** Closed instances of [inRange] are settled by evaluation. *)
Ltac range := first
  [ by (apply outOfRange_false; vm_compute)
  | by (rewrite <- outOfRange_false; vm_compute) ].

Lemma hold_enrolls_registered_witness :
  playersOnline lobby3 !! "p_4" = None
  ∧ exec (handleHold (holdReq "p_4" (Qc_of_Z 7))) lobby3
      = (lobby4, [WriteJson 400 (Failure "Invalid square index")])
  ∧ effects (handleHold (holdReq "p_1" (Qc_of_Z 0))) lobby3
      = [WriteJson 403 (Failure "Not enough players to start level")]
  ∧ ∃ b, effects (handleHold (holdReq "p_1" (Qc_of_Z 0))) lobby4
      = [WriteJson 200 (Held b false)].
Proof.
  split; [by vm_compute|]. split; [|split].
  - pose proof (hold_enrolls_registered lobby3 (mkData (Some "p_4") (Some (Qc_of_Z 7)))
                  "p_4" (Qc_of_Z 7) (registered "p_4" "dan")
                  eq_refl ltac:(done) eq_refl eq_refl ltac:(by vm_compute))
      as (_ & _ & _ & _ & Hbad & _).
    etrans; [apply Hbad; range|]. by vm_compute.
  - by vm_compute.
  - eexists. by vm_compute.
Defined.

(** The four checks of [handleHold] and the assignment, from the state
    [s0] in which the caller is online. *)
Lemma holdFrom_checks (playerId : string) (player : Online) (squareIndex : Qc)
    (s0 : Server) :
  let r := holdFrom playerId player squareIndex s0 in
  let count := Z.of_nat (size (playersOnline s0)) in
  (¬ inRange squareIndex s0 →
     r = (s0, [WriteJson 400 (Failure "Invalid square index")]))
  ∧ (inRange squareIndex s0 → count ≠ squaresCount s0 →
       r = (s0, [WriteJson 403 (Failure "Not enough players to start level")]))
  ∧ (inRange squareIndex s0 → count = squaresCount s0 → o_squareIndex player ≠ None →
       r = (s0, [WriteJson 403 (Failure "Player already holds a square")]))
  ∧ (inRange squareIndex s0 → count = squaresCount s0 → o_squareIndex player = None →
       ∀ holder, occupied s0 !! squareIndex = Some holder → holder ≠ "" →
       r = (s0, [WriteJson 403 (Failure "Square already occupied")]))
  ∧ (inRange squareIndex s0 → count = squaresCount s0 → o_squareIndex player = None →
       occupied s0 !! squareIndex = None →
       let entry := mkOnline (o_id player) (o_nickname player) (o_country player)
                             (o_role player) (o_levelsCompleted player)
                             (Some squareIndex) in
       let s1 := mkServer (players s0) (currentLevel s0) (squaresCount s0)
                          (<[squareIndex := o_id player]> (occupied s0))
                          (<[playerId := entry]> (playersOnline s0)) in
       r = settle s1
       ∧ (checkLevelCompletion s1 = false →
            r = (s1, [WriteJson 200 (Held (getBoardState s1) false)]))
       ∧ occupied s1 !! squareIndex = Some (o_id player)
       ∧ (∀ i, i ≠ squareIndex → occupied s1 !! i = occupied s0 !! i)
       ∧ playersOnline s1 !! playerId = Some entry
       ∧ (∀ other, other ≠ playerId →
            playersOnline s1 !! other = playersOnline s0 !! other)).
Proof.
  intros r count.
  destruct (holdFrom_case playerId player squareIndex s0) as (H1 & H2 & H3 & H4 & H5).
  fold r in H1, H2, H3, H4, H5.
  split; [exact H1|]. split; [exact H2|]. split; [exact H3|]. split.
  - intros Hin Hn Hfree holder Hocc Hholder. apply H4; [done..|].
    unfold truthy. rewrite Hocc. by apply bool_decide_eq_true_2.
  - intros Hin Hn Hfree Hocc entry s1.
    assert (Hr : r = settle s1).
    { apply H5; [done..|]. unfold truthy. by rewrite Hocc. }
    split; [done|]. split.
    { intros Hc. rewrite Hr. unfold settle. by rewrite Hc. }
    cbn. split; [apply lookup_insert_eq|].
    split; [intros i Hi; by apply lookup_insert_ne|].
    split; [apply lookup_insert_eq|].
    intros other Hother. by apply lookup_insert_ne.
Qed.

(** C4, as the specification states it: each refusal leaves the state
    unchanged, and an index outside 0..squaresCount-1 is refused as
    invalid.  With three players online and p_4 registered, the hold of
    square 7 by p_4 is refused as invalid and p_4 is online afterwards.
    With four players online on the board of four squares, the index
    7/2, which is no integer and lies above 3, is not refused: the hold
    succeeds and [occupied] has the key 7/2. *)
Lemma hold_checks_counterexample :
  let held := state_after (handleHold (holdReq "p_1" (Q2Qc (7 # 2)))) lobby4 in
  playersOnline lobby3 !! "p_4" = None
  ∧ exec (handleHold (holdReq "p_4" (Qc_of_Z 7))) lobby3
      = (lobby4, [WriteJson 400 (Failure "Invalid square index")])
  ∧ is_Some (playersOnline lobby4 !! "p_4")
  ∧ squaresCount lobby4 = 4
  ∧ (∀ z : Z, Qc_of_Z z ≠ Q2Qc (7 # 2))
  ∧ (Qc_of_Z 3 < Q2Qc (7 # 2))%Qc
  ∧ effects (handleHold (holdReq "p_1" (Q2Qc (7 # 2)))) lobby4
      = [WriteJson 200 (Held (getBoardState held) false)]
  ∧ occupied held !! Q2Qc (7 # 2) = Some "p_1".
Proof.
  cbn zeta. split; [by vm_compute|]. split; [by vm_compute|].
  split; [exists (fresh (registered "p_4" "dan")); by vm_compute|].
  split; [by vm_compute|]. split.
  { intros z E. apply (f_equal this) in E. vm_compute in E. congruence. }
  split; [by vm_compute|]. split; by vm_compute.
Qed.

(** C4, amended.  For a caller found in the directory, [handleHold]
    first makes sure the caller is online: [s0] is the state with the
    caller's new entry, holding nothing, if there was none, and the
    state itself otherwise.  Then it checks, in this order: the square
    index is a number with 0 <= i < squaresCount, which for an integer
    is 0..squaresCount-1 (Invalid square index); the number of online
    players, the caller included, is squaresCount (Not enough players to
    start level, for fewer and for more); the caller holds no square
    (Player already holds a square); the square is free (Square already
    occupied).  Each refusal has its own message and leaves [s0]: the
    state as it was for a caller who was online, and nothing but the
    caller's new entry added otherwise.  When all pass, the square is
    given to the caller and the caller's square is set, nothing else
    changes, and the handler goes on to the completion check and
    answers with the snapshot of the state it leaves. *)
Theorem hold_checks_in_order (s : Server) (data : Data) (playerId : string)
    (squareIndex : Qc) (stored : Player) :
  d_playerId data = Some playerId → playerId ≠ "" →
  d_squareIndex data = Some squareIndex →
  getPlayerById (players s) playerId = Some stored →
  let found := playersOnline s !! playerId in
  let player :=
    default (mkOnline (p_id stored) (p_nickname stored) (p_country stored)
                      (p_role stored) (default 0 (p_levelsCompleted stored)) None) found in
  let s0 := match found with
            | Some _ => s
            | None => mkServer (players s) (currentLevel s) (squaresCount s) (occupied s)
                               (<[playerId := player]> (playersOnline s))
            end in
  let r := exec (handleHold (Some data)) s in
  let count := Z.of_nat (size (playersOnline s0)) in
  playersOnline s0 !! playerId = Some player
  ∧ (is_Some found → s0 = s)
  ∧ (found = None → o_squareIndex player = None
                    ∧ size (playersOnline s0) = S (size (playersOnline s))
                    ∧ ∀ other, other ≠ playerId →
                        playersOnline s0 !! other = playersOnline s !! other)
  ∧ (idsAgree s → o_id player = playerId)
  ∧ (Inv s → ∀ holder, occupied s !! squareIndex = Some holder → holder ≠ "")
  ∧ (¬ inRange squareIndex s →
       r = (s0, [WriteJson 400 (Failure "Invalid square index")]))
  ∧ (inRange squareIndex s → count ≠ squaresCount s →
       r = (s0, [WriteJson 403 (Failure "Not enough players to start level")]))
  ∧ (inRange squareIndex s → count = squaresCount s → o_squareIndex player ≠ None →
       r = (s0, [WriteJson 403 (Failure "Player already holds a square")]))
  ∧ (inRange squareIndex s → count = squaresCount s → o_squareIndex player = None →
       ∀ holder, occupied s !! squareIndex = Some holder → holder ≠ "" →
       r = (s0, [WriteJson 403 (Failure "Square already occupied")]))
  ∧ (inRange squareIndex s → count = squaresCount s → o_squareIndex player = None →
       occupied s !! squareIndex = None →
       let entry := mkOnline (o_id player) (o_nickname player) (o_country player)
                             (o_role player) (o_levelsCompleted player)
                             (Some squareIndex) in
       let s1 := mkServer (players s) (currentLevel s) (squaresCount s)
                          (<[squareIndex := o_id player]> (occupied s))
                          (<[playerId := entry]> (playersOnline s0)) in
       r = settle s1
       ∧ (checkLevelCompletion s1 = false →
            r = (s1, [WriteJson 200 (Held (getBoardState s1) false)]))
       ∧ occupied s1 !! squareIndex = Some (o_id player)
       ∧ (∀ i, i ≠ squareIndex → occupied s1 !! i = occupied s !! i)
       ∧ playersOnline s1 !! playerId = Some entry
       ∧ (∀ other, other ≠ playerId →
            playersOnline s1 !! other = playersOnline s0 !! other))
  ∧ Shows (getBoardState r.1) r.1
  ∧ NoDup ["Invalid square index"; "Not enough players to start level";
           "Player already holds a square"; "Square already occupied"]
  ∧ (∀ z, squareIndex = Qc_of_Z z →
          inRange squareIndex s ↔ 0 ≤ z ≤ squaresCount s - 1).
Proof.
  intros Hp Hne Hs Hg found player s0 r count.
  pose proof (getPlayerById_id _ _ _ Hg) as Hid.
  assert (Hr : r = holdFrom playerId player squareIndex s0).
  { subst r s0 player found. rewrite (handleHold_run _ _ _ _ Hp Hne Hs), Hg.
    by destruct (playersOnline s !! playerId). }
  pose proof (holdFrom_checks playerId player squareIndex s0) as Hchecks.
  cbn zeta in Hchecks. rewrite <- Hr in Hchecks. fold count in Hchecks.
  assert (Hlast : Shows (getBoardState r.1) r.1
                  ∧ NoDup ["Invalid square index"; "Not enough players to start level";
                           "Player already holds a square"; "Square already occupied"]
                  ∧ (∀ z, squareIndex = Qc_of_Z z →
                          inRange squareIndex s ↔ 0 ≤ z ≤ squaresCount s - 1)).
  { split; [apply getBoardState_shows|].
    split; [apply (@bool_decide_unpack _ (NoDup_dec _)); by vm_compute|].
    intros z ->. apply inRange_integer. }
  assert (Hholder : Inv s → ∀ holder, occupied s !! squareIndex = Some holder → holder ≠ "").
  { intros [_ Ht Hocc] holder Hh ->. apply Hocc in Hh as (p & Hlook & _). congruence. }
  clearbody r. subst count s0 player found.
  destruct (playersOnline s !! playerId) as [p|] eqn:Ho; cbn [default from_option id] in *.
  - split; [done|]. split; [done|]. split; [done|].
    split; [intros Hids; by apply Hids|]. split; [exact Hholder|].
    destruct Hchecks as (H1 & H2 & H3 & H4 & H5).
    split; [exact H1|]. split; [exact H2|]. split; [exact H3|]. split; [exact H4|].
    split; [exact H5|]. exact Hlast.
  - split; [apply lookup_insert_eq|]. split; [by intros [? ?]|].
    split.
    { intros _. split; [done|]. split; [by apply map_size_insert_None|].
      intros other Hother. by apply lookup_insert_ne. }
    split; [done|]. split; [exact Hholder|].
    destruct Hchecks as (H1 & H2 & H3 & H4 & H5).
    split; [exact H1|]. split; [exact H2|]. split; [exact H3|]. split; [exact H4|].
    split; [exact H5|]. exact Hlast.
Qed.

Lemma hold_checks_in_order_witness :
  let held := run [Hold (holdReq "p_1" (Qc_of_Z 2))] lobby4 in
  exec (handleHold (holdReq "p_1" (Qc_of_Z 4))) lobby4
    = (lobby4, [WriteJson 400 (Failure "Invalid square index")])
  ∧ exec (handleHold (holdReq "p_1" (Qc_of_Z 4))) lobby3
    = (lobby3, [WriteJson 400 (Failure "Invalid square index")])
  ∧ exec (handleHold (holdReq "p_1" (Qc_of_Z 0))) lobby3
    = (lobby3, [WriteJson 403 (Failure "Not enough players to start level")])
  ∧ exec (handleHold (holdReq "p_1" (Qc_of_Z 2))) held
    = (held, [WriteJson 403 (Failure "Player already holds a square")])
  ∧ exec (handleHold (holdReq "p_2" (Qc_of_Z 2))) held
    = (held, [WriteJson 403 (Failure "Square already occupied")])
  ∧ exec (handleHold (holdReq "p_1" (Qc_of_Z 2))) lobby4
    = (held, [WriteJson 200 (Held (getBoardState held) false)])
  ∧ occupied held = {[ Qc_of_Z 2 := "p_1" ]}
  ∧ playersOnline held !! "p_1" = Some (mkOnline "p_1" "ann" "NL" "player" 0 (Some (Qc_of_Z 2)))
  ∧ exec (handleHold (holdReq "p_4" (Qc_of_Z (-1)))) lobby3
    = (lobby4, [WriteJson 400 (Failure "Invalid square index")]).
Proof.
  pose (held := run [Hold (holdReq "p_1" (Qc_of_Z 2))] lobby4).
  assert (Hne : "p_1" ≠ "") by done.
  pose proof (λ s i,
    hold_checks_in_order s (mkData (Some "p_1") (Some (Qc_of_Z i))) "p_1" (Qc_of_Z i)
      (registered "p_1" "ann") eq_refl Hne eq_refl) as Hann.
  pose proof (hold_checks_in_order held (mkData (Some "p_2") (Some (Qc_of_Z 2))) "p_2"
      (Qc_of_Z 2) (registered "p_2" "bob")
      eq_refl ltac:(done) eq_refl eq_refl) as (_ & _ & _ & _ & _ & _ & _ & _ & Htaken & _).
  pose proof (hold_checks_in_order lobby3 (mkData (Some "p_4") (Some (Qc_of_Z (-1)))) "p_4"
      (Qc_of_Z (-1)) (registered "p_4" "dan")
      eq_refl ltac:(done) eq_refl eq_refl) as (_ & _ & _ & _ & _ & Hnew & _).
  split; [|split; [|split; [|split; [|split; [|split; [|split; [|split]]]]]]].
  - destruct (Hann lobby4 4 eq_refl) as (_ & _ & _ & _ & _ & H & _).
    etrans; [apply H; range|]. by vm_compute.
  - destruct (Hann lobby3 4 eq_refl) as (_ & _ & _ & _ & _ & H & _).
    etrans; [apply H; range|]. by vm_compute.
  - destruct (Hann lobby3 0 eq_refl) as (_ & _ & _ & _ & _ & _ & H & _).
    etrans; [apply H; [range | by vm_compute]|]. by vm_compute.
  - destruct (Hann held 2 eq_refl) as (_ & _ & _ & _ & _ & _ & _ & H & _).
    etrans; [apply H; [range | by vm_compute..]|]. by vm_compute.
  - etrans; [apply (Htaken ltac:(range) ltac:(by vm_compute) ltac:(by vm_compute) "p_1");
             by vm_compute|]. by vm_compute.
  - destruct (Hann lobby4 2 eq_refl) as (_ & _ & _ & _ & _ & _ & _ & _ & _ & H & _).
    destruct H as (_ & H & _); [range | by vm_compute..|].
    etrans; [apply H; by vm_compute|]. by vm_compute.
  - by vm_compute.
  - by vm_compute.
  - etrans; [apply Hnew; range|]. by vm_compute.
Defined.

Lemma half_not_integer (z : Z) : Qc_of_Z z ≠ half.
Proof. intros E. apply (f_equal this) in E. vm_compute in E. congruence. Qed.

Lemma half_inRange (s : Server) : 1 ≤ squaresCount s → inRange half s.
Proof.
  intros Hn. split.
  - by vm_compute.
  - unfold Qclt, Qlt. cbn. change (Qred (1 # 2)) with (1 # 2)%Q. cbn. lia.
Qed.

(** C10. The square index is only checked as a number in the interval
    from 0 (included) to squaresCount (excluded).  One half is in it and
    is no integer: a hold at one half is never refused as an invalid
    square index, and when the other checks pass it succeeds and
    [occupied] gets the key one half, which is none of the squares
    0..squaresCount-1 of the board. *)
Theorem hold_accepts_fraction (s : Server) (data : Data) (playerId : string) :
  d_playerId data = Some playerId → playerId ≠ "" →
  d_squareIndex data = Some half →
  1 ≤ squaresCount s →
  let r := exec (handleHold (Some data)) s in
  (∀ z, Qc_of_Z z ≠ half)
  ∧ inRange half s
  ∧ r.2 ≠ [WriteJson 400 (Failure "Invalid square index")]
  ∧ (∀ stored player,
       getPlayerById (players s) playerId = Some stored →
       playersOnline s !! playerId = Some player →
       Z.of_nat (size (playersOnline s)) = squaresCount s →
       o_squareIndex player = None →
       occupied s !! half = None →
       let s1 := assign playerId player half s in
       r = settle s1
       ∧ (∃ b done, r.2 = [WriteJson 200 (Held b done)]
                  ∨ ∃ ps, r.2 = [SavePlayers ps; WriteJson 200 (Held b done)])
       ∧ occupied s1 !! half = Some (o_id player)
       ∧ playersOnline s1 !! playerId = Some (with_squareIndex (Some half) player)
       ∧ (checkLevelCompletion s1 = false →
            r = (s1, [WriteJson 200 (Held (getBoardState s1) false)]))).
Proof.
  intros Hp Hne Hs Hn r.
  pose proof (half_inRange s Hn) as Hin.
  split; [exact half_not_integer|]. split; [exact Hin|]. split.
  - subst r. rewrite (handleHold_run _ _ _ _ Hp Hne Hs).
    assert (Hfrom : ∀ p s0, squaresCount s0 = squaresCount s →
              (holdFrom playerId p half s0).2 ≠ [WriteJson 400 (Failure "Invalid square index")]).
    { intros p s0 Hs0. unfold holdFrom.
      assert (outOfRange half s0 = false) as ->.
      { apply outOfRange_false. apply half_inRange. by rewrite Hs0. }
      repeat (match goal with |- context [if ?b then _ else _] => destruct b end; [done|]).
      unfold settle. destruct (checkLevelCompletion _); done. }
    destruct (getPlayerById (players s) playerId); [|done].
    destruct (playersOnline s !! playerId); by apply Hfrom.
  - intros stored player Hg Ho Hcount Hfree Hocc s1.
    assert (Hr : r = settle s1).
    { subst r. rewrite (handleHold_run _ _ _ _ Hp Hne Hs), Hg, Ho.
      apply holdFrom_case; [done..|]. unfold truthy. by rewrite Hocc. }
    split; [exact Hr|]. split; [|split; [|split]].
    + rewrite Hr. unfold settle. destruct (checkLevelCompletion s1); cbn; eauto.
    + cbn. apply lookup_insert_eq.
    + cbn. apply lookup_insert_eq.
    + intros Hc. rewrite Hr. unfold settle. by rewrite Hc.
Qed.

Lemma hold_accepts_fraction_witness :
  let held := run [Hold (holdReq "p_1" half)] lobby4 in
  exec (handleHold (holdReq "p_1" half)) lobby4
    = (held, [WriteJson 200 (Held (getBoardState held) false)])
  ∧ occupied held !! half = Some "p_1"
  ∧ dom (occupied held) = {[ half ]}.
Proof.
  pose proof (hold_accepts_fraction lobby4 (mkData (Some "p_1") (Some half)) "p_1"
                eq_refl ltac:(done) eq_refl ltac:(by vm_compute)) as (_ & _ & _ & H).
  destruct (H (registered "p_1" "ann") (fresh (registered "p_1" "ann")))
    as (_ & _ & _ & _ & Hr); [by vm_compute..|].
  split; [|split].
  - etrans; [apply Hr; by vm_compute|]. by vm_compute.
  - by vm_compute.
  - by vm_compute.
Defined.

(** ** Completion *)

Lemma ensureOnline_state s playerId :
  state_after (ensureOnline playerId) s =
    match getPlayerById (players s) playerId with
    | Some stored =>
        match playersOnline s !! playerId with
        | Some _ => s
        | None => set_playersOnline (<[playerId := fresh stored]> (playersOnline s)) s
        end
    | None => s
    end.
Proof.
  unfold state_after, exec.
  destruct (getPlayerById (players s) playerId) as [stored|] eqn:Hg.
  - destruct (playersOnline s !! playerId) as [player|] eqn:Ho.
    + by rewrite (ensureOnline_old _ _ _ _ Hg Ho).
    + by rewrite (ensureOnline_new _ _ _ Hg Ho).
  - by rewrite (ensureOnline_unknown _ _ Hg).
Qed.

(** [ensureOnline] only touches [playersOnline]. *)
Lemma ensureOnline_frame s playerId :
  let s0 := state_after (ensureOnline playerId) s in
  players s0 = players s ∧ currentLevel s0 = currentLevel s
  ∧ squaresCount s0 = squaresCount s ∧ occupied s0 = occupied s.
Proof.
  cbn zeta. rewrite ensureOnline_state.
  destruct (getPlayerById _ _); [|done]. by destruct (playersOnline s !! playerId).
Qed.

Lemma handleHold_from s req playerId squareIndex :
  holdArgs req = Some (playerId, squareIndex) →
  is_Some (getPlayerById (players s) playerId) →
  let s0 := state_after (ensureOnline playerId) s in
  ∃ player, playersOnline s0 !! playerId = Some player
            ∧ exec (handleHold req) s = holdFrom playerId player squareIndex s0.
Proof.
  intros (data & -> & Hp & Hne & Hs)%holdArgs_Some [stored Hg]. cbn zeta.
  rewrite ensureOnline_state, (handleHold_run _ _ _ _ Hp Hne Hs), Hg.
  destruct (playersOnline s !! playerId) as [player|] eqn:Ho.
  - by exists player.
  - exists (fresh stored). split; [apply lookup_insert_eq | done].
Qed.

Lemma handleHold_unknown s req playerId squareIndex :
  holdArgs req = Some (playerId, squareIndex) →
  getPlayerById (players s) playerId = None →
  exec (handleHold req) s = (s, [WriteJson 400 (Failure "Unknown player")]).
Proof.
  intros (data & -> & Hp & Hne & Hs)%holdArgs_Some Hg.
  by rewrite (handleHold_run _ _ _ _ Hp Hne Hs), Hg.
Qed.

Lemma Occupies_inv s req s1 playerId squareIndex :
  holdArgs req = Some (playerId, squareIndex) →
  Occupies s req s1 →
  let s0 := state_after (ensureOnline playerId) s in
  ∃ player, is_Some (getPlayerById (players s) playerId)
    ∧ playersOnline s0 !! playerId = Some player
    ∧ inRange squareIndex s
    ∧ Z.of_nat (size (playersOnline s0)) = squaresCount s
    ∧ o_squareIndex player = None
    ∧ truthy (occupied s !! squareIndex) = false
    ∧ s1 = assign playerId player squareIndex s0.
Proof.
  intros Ha [data pid sq player -> Hp Hne Hs Hg Ho Hin Hn Hfree Hocc ->].
  unfold holdArgs in Ha. cbn in Ha. rewrite Hp in Ha. cbn in Ha.
  rewrite Hs in Ha. cbn in Ha. case_decide; [done|].
  injection Ha as <- <-. exists player. done.
Qed.

Lemma Occupies_args s req s1 : Occupies s req s1 → is_Some (holdArgs req).
Proof.
  intros [data pid sq player -> Hp Hne Hs _ _ _ _ _ _ _].
  unfold holdArgs. cbn. rewrite Hp. cbn. rewrite Hs. cbn.
  case_decide; [done|]. eauto.
Qed.

(** The two outcomes of [handleHold]: the square is occupied and the
    handler goes on to the completion check, or the request is refused
    with one failure response and the board is as it was. *)
Lemma handleHold_outcome s req :
  (∃ s1, Occupies s req s1 ∧ exec (handleHold req) s = settle s1
         ∧ currentLevel s1 = currentLevel s)
  ∨ ((∀ s1, ¬ Occupies s req s1)
     ∧ ∃ s0 status msg, exec (handleHold req) s = (s0, [WriteJson status (Failure msg)])
         ∧ currentLevel s0 = currentLevel s
         ∧ (s0 = s ∨ ∃ playerId, playerId ≠ "" ∧ s0 = state_after (ensureOnline playerId) s)
         ∧ (status = 400 ∨ status = 403)).
Proof.
  destruct (holdArgs req) as [[playerId squareIndex]|] eqn:Ha.
  2:{ right. split.
      - intros s1 [? ?]%Occupies_args. congruence.
      - destruct (handleHold_rejected s req Ha) as [msg Hr]. exists s, 400, msg. eauto 10. }
  destruct (getPlayerById (players s) playerId) as [stored|] eqn:Hg.
  2:{ right. split.
      - intros s1 Hocc. destruct (Occupies_inv _ _ _ _ _ Ha Hocc) as (? & [? ?] & _).
        congruence.
      - exists s, 400, "Unknown player". split; [|by eauto 10]. by eapply handleHold_unknown. }
  destruct (handleHold_from s req _ _ Ha (mk_is_Some _ _ Hg)) as (player & Ho & Hr).
  destruct (ensureOnline_frame s playerId) as (Hps & Hl & Hc & Hoc).
  assert (Hne : playerId ≠ "") by (by destruct (holdArgs_Some _ _ _ Ha) as (? & _ & _ & ? & _)).
  set (s0 := state_after (ensureOnline playerId) s) in *.
  assert (Hs0 : s0 = s ∨ ∃ pid, pid ≠ "" ∧ s0 = state_after (ensureOnline pid) s)
    by (right; by exists playerId).
  assert (Hno : ∀ (P : Prop), ¬ P →
    (∀ p, playersOnline s0 !! playerId = Some p → inRange squareIndex s →
       Z.of_nat (size (playersOnline s0)) = squaresCount s → o_squareIndex p = None →
       truthy (occupied s !! squareIndex) = false → P) →
    ∀ s1, ¬ Occupies s req s1).
  { intros P HP Himp s1 Hocc.
    destruct (Occupies_inv _ _ _ _ _ Ha Hocc) as (p & _ & ? & ? & ? & ? & ? & _).
    apply HP. by eapply (Himp p). }
  destruct (holdFrom_case playerId player squareIndex s0) as (H1 & H2 & H3 & H4 & H5).
  rewrite <- Hr in H1, H2, H3, H4, H5.
  assert (Hrange : inRange squareIndex s0 ↔ inRange squareIndex s)
    by (unfold inRange; by rewrite Hc).
  rewrite Hrange in H1, H2, H3, H4, H5. rewrite Hc in H2, H3, H4, H5.
  rewrite Hoc in H4, H5.
  destruct (decide (inRange squareIndex s)) as [Hin|Hout].
  2:{ right. split; [|exists s0; by eauto 10].
      apply (Hno (inRange squareIndex s)); [done|]. by intros. }
  destruct (decide (Z.of_nat (size (playersOnline s0)) = squaresCount s)) as [Hn|Hn].
  2:{ right. split; [|exists s0; by eauto 10].
      apply (Hno (Z.of_nat (size (playersOnline s0)) = squaresCount s)); [done|].
      by intros. }
  destruct (decide (o_squareIndex player = None)) as [Hfree|Hheld].
  2:{ right. split; [|exists s0; by eauto 10].
      apply (Hno (o_squareIndex player = None)); [done|].
      intros p Hp. by replace p with player by congruence. }
  destruct (truthy (occupied s !! squareIndex)) eqn:Ht.
  { right. split; [|exists s0; by eauto 10].
    apply (Hno (truthy (occupied s !! squareIndex) = false)); [congruence|].
    by intros. }
  left. exists (assign playerId player squareIndex s0). split; [|split].
  - destruct (holdArgs_Some _ _ _ Ha) as (data & -> & Hp & _ & Hs).
    by eapply Occupies_intro.
  - by apply H5.
  - done.
Qed.

Lemma Occupies_unique s req s1 s2 : Occupies s req s1 → Occupies s req s2 → s1 = s2.
Proof.
  intros H1 H2. destruct (Occupies_args _ _ _ H1) as [[playerId squareIndex] Ha].
  destruct (Occupies_inv _ _ _ _ _ Ha H1) as (p1 & _ & Hp1 & _ & _ & _ & _ & ->).
  destruct (Occupies_inv _ _ _ _ _ Ha H2) as (p2 & _ & Hp2 & _ & _ & _ & _ & ->).
  congruence.
Qed.

Lemma checkLevelCompletion_true s :
  checkLevelCompletion s = true ↔
    Z.of_nat (size (occupied s)) = squaresCount s
    ∧ Z.of_nat (size (playersOnline s)) = squaresCount s.
Proof.
  unfold checkLevelCompletion. cbn zeta.
  by rewrite andb_true_iff, !bool_decide_eq_true.
Qed.

Ltac quiet :=
  repeat first [apply Forall_nil_2 | apply Forall_cons_2; [by intros []|]].

Lemma handleRelease_quiet s req :
  let r := exec (handleRelease req) s in
  currentLevel r.1 = currentLevel s ∧ squaresCount r.1 = squaresCount s
  ∧ players r.1 = players s ∧ Forall (λ e, ¬ isSave e) r.2.
Proof.
  cbn zeta. destruct (idArg req) as [playerId|] eqn:Ha.
  - destruct (idArg_Some _ _ Ha) as (data & -> & Hp & Hne).
    rewrite (handleRelease_run _ _ _ Hp Hne).
    destruct (playersOnline s !! playerId) as [player|];
      [destruct (o_squareIndex player)|destruct (bool_decide _)];
      cbn; repeat split; quiet.
  - destruct (handleRelease_rejected s req Ha) as [msg ->].
    cbn; repeat split; quiet.
Qed.

Lemma handleJoin_quiet s req :
  let r := exec (handleJoin req) s in
  currentLevel r.1 = currentLevel s ∧ squaresCount r.1 = squaresCount s
  ∧ players r.1 = players s ∧ occupied r.1 = occupied s
  ∧ Forall (λ e, ¬ isSave e) r.2.
Proof.
  cbn zeta. destruct (idArg req) as [playerId|] eqn:Ha.
  - destruct (idArg_Some _ _ Ha) as (data & -> & Hp & Hne).
    rewrite (handleJoin_run _ _ _ Hp Hne).
    destruct (getPlayerById (players s) playerId) as [stored|];
      [destruct (playersOnline s !! playerId)|]; cbn; repeat split; quiet.
  - destruct (handleJoin_rejected s req Ha) as [msg ->].
    cbn; repeat split; quiet.
Qed.

(** C1. The level advances in a call of [handleHold] exactly when the
    call passes every check and occupies its square and, at that
    instant, the number of occupied squares and the number of online
    players both equal squaresCount.  It is then that players.json is
    written and that the response says levelCompleted.  A call of
    [handleRelease], [handleJoin] or [handleBoard] never advances the
    level and never writes players.json. *)
Theorem completion_iff (s : Server) (req : option Data) :
  let s' := state_after (handleHold req) s in
  let out := effects (handleHold req) s in
  (levelAdvanced s s' ↔
     ∃ s1, Occupies s req s1
           ∧ Z.of_nat (size (occupied s1)) = squaresCount s1
           ∧ Z.of_nat (size (playersOnline s1)) = squaresCount s1)
  ∧ (levelAdvanced s s' ↔ Exists isSave out)
  ∧ (levelAdvanced s s' ↔ ∃ b, list.last out = Some (WriteJson 200 (Held b true)))
  ∧ ((∃ s1, Occupies s req s1) ↔ ∃ b done, list.last out = Some (WriteJson 200 (Held b done)))
  ∧ (¬ levelAdvanced s (state_after (handleRelease req) s)
     ∧ Forall (λ e, ¬ isSave e) (effects (handleRelease req) s))
  ∧ (¬ levelAdvanced s (state_after (handleJoin req) s)
     ∧ Forall (λ e, ¬ isSave e) (effects (handleJoin req) s))
  ∧ (¬ levelAdvanced s (state_after handleBoard s)
     ∧ Forall (λ e, ¬ isSave e) (effects handleBoard s)).
Proof.
  cbn zeta. unfold levelAdvanced, state_after, effects.
  split; [|split; [|split; [|split; [|split; [|split]]]]].
  5:{ destruct (handleRelease_quiet s req) as (Hl & _ & _ & Hq). split; [by intros []|done]. }
  5:{ destruct (handleJoin_quiet s req) as (Hl & _ & _ & _ & Hq). split; [by intros []|done]. }
  5:{ rewrite handleBoard_run. cbn. split; [by intros []|quiet]. }
  all: destruct (handleHold_outcome s req)
         as [(s1 & Hocc & -> & Hl) | (Hno & s0 & status & msg & -> & Hl & _ & _)].
  - unfold settle. destruct (checkLevelCompletion s1) eqn:Hc; cbn [fst].
    + split; [intros _|intros _; cbn; lia].
      exists s1. split; [done|]. by apply checkLevelCompletion_true.
    + split; [done|]. intros (s2 & Hocc2 & Hsizes).
      rewrite (Occupies_unique _ _ _ _ Hocc2 Hocc) in Hsizes.
      apply checkLevelCompletion_true in Hsizes. congruence.
  - cbn [fst]. split; [done|]. intros (s1 & Hocc & _). by destruct (Hno s1).
  - unfold settle. destruct (checkLevelCompletion s1); cbn [fst snd].
    + split; [intros _; by left | intros _; cbn; lia].
    + split; [done|]. rewrite Exists_cons, Exists_nil. cbn. tauto.
  - cbn [fst snd]. split; [done|]. rewrite Exists_cons, Exists_nil. cbn. tauto.
  - unfold settle. destruct (checkLevelCompletion s1); cbn [fst snd list.last].
    + split; [intros _; by eexists | intros _; cbn; lia].
    + split; [done|]. by intros [b [=]].
  - cbn [fst snd list.last]. split; [done|]. by intros [b [=]].
  - unfold settle. split; [|by exists s1].
    intros _. destruct (checkLevelCompletion s1); cbn; by do 2 eexists.
  - cbn [snd list.last]. split; [intros [s1 Hocc]; by destruct (Hno s1)|]. by intros (b & d & [=]).
Qed.

(** ** Crediting *)

Lemma levelsOf_creditStored a ps id :
  levelsOf (creditStored a ps) id =
    (λ n, n + (if decide (a = id) then 1 else 0)) <$> levelsOf ps id.
Proof.
  unfold levelsOf. induction ps as [|p ps IH]; cbn; [done|].
  destruct (decide (p_id p = a)) as [Hpa|Hpa]; cbn.
  - destruct (decide (p_id p = id)) as [Hpi|Hpi]; cbn.
    + rewrite decide_True by congruence. done.
    + rewrite decide_False by congruence.
      destruct (getPlayerById ps id); cbn; f_equal; lia.
  - destruct (decide (p_id p = id)) as [Hpi|Hpi]; cbn.
    + rewrite decide_False by congruence. f_equal; lia.
    + apply IH.
Qed.

Lemma levelsOf_foldl l ps id :
  levelsOf (foldl creditDirectory ps l) id =
    (λ n, n + Z.of_nat (length (filter (λ p, credits id p = true) l))) <$> levelsOf ps id.
Proof.
  revert ps. induction l as [|a l IH]; intros ps; cbn [foldl].
  - destruct (levelsOf ps id); cbn; f_equal; lia.
  - rewrite IH, filter_cons. unfold creditDirectory. destruct (holding a) eqn:Hh.
    + rewrite levelsOf_creditStored.
      destruct (decide (o_id a = id)) as [Hd|Hd].
      * rewrite (decide_True (P := credits id a = true))
          by (unfold credits; rewrite Hh, andb_true_r; by apply bool_decide_eq_true_2).
        destruct (levelsOf ps id); cbn [fmap option_fmap option_map length]; [|done].
        f_equal. lia.
      * rewrite (decide_False (P := credits id a = true))
          by (unfold credits; by rewrite Hh, andb_true_r, bool_decide_eq_true).
        destruct (levelsOf ps id); cbn [fmap option_fmap option_map]; [|done].
        f_equal. lia.
    + rewrite (decide_False (P := credits id a = true))
        by (unfold credits; by rewrite Hh, andb_false_r).
      done.
Qed.

Lemma credits_count (po : gmap string Online) id :
  (∀ k p, po !! k = Some p → o_id p = k) →
  length (filter (λ p, credits id p = true) (values po))
    = if holdsSquare po id then 1%nat else 0%nat.
Proof.
  unfold values, holdsSquare.
  induction po as [|k v m Hk Hfirst IH] using map_first_key_ind; intros Hids.
  - by rewrite map_to_list_empty.
  - rewrite map_to_list_insert_first_key by done. cbn [fmap list_fmap snd].
    assert (Hv : o_id v = k) by (apply (Hids k); apply lookup_insert_eq).
    assert (Hm : ∀ k' p, m !! k' = Some p → o_id p = k').
    { intros k' p Hp. apply Hids. rewrite lookup_insert_ne; [done|]. congruence. }
    rewrite filter_cons. specialize (IH Hm).
    destruct (decide (k = id)) as [->|Hne].
    + rewrite lookup_insert_eq. rewrite Hk in IH. destruct (holding v) eqn:Hh.
      * rewrite (decide_True (P := credits id v = true))
          by (unfold credits; by rewrite Hh, andb_true_r, bool_decide_eq_true).
        cbn [length]. by rewrite IH.
      * rewrite (decide_False (P := credits id v = true))
          by (unfold credits; by rewrite Hh, andb_false_r).
        done.
    + rewrite lookup_insert_ne by done.
      rewrite (decide_False (P := credits id v = true)); [done|].
      unfold credits. rewrite bool_decide_eq_false_2 by congruence. done.
Qed.

Lemma idsAgree_ensureOnline s playerId :
  idsAgree s → idsAgree (state_after (ensureOnline playerId) s).
Proof.
  intros Hids. rewrite ensureOnline_state.
  destruct (getPlayerById (players s) playerId) as [stored|] eqn:Hg; [|done].
  destruct (playersOnline s !! playerId) eqn:Ho; [done|].
  intros k p. cbn. rewrite lookup_insert. case_decide as Hk.
  - intros [= <-]. subst k. cbn. by eapply getPlayerById_id.
  - apply Hids.
Qed.

Lemma idsAgree_assign s playerId player squareIndex :
  idsAgree s → playersOnline s !! playerId = Some player →
  idsAgree (assign playerId player squareIndex s).
Proof.
  intros Hids Ho k p. cbn. rewrite lookup_insert. case_decide as Hk.
  - intros [= <-]. subst k. cbn. by apply Hids.
  - apply Hids.
Qed.

(** C2. When a hold occupies its square and completes the level:
    the level is one more and squaresCount twice what they were,
    [occupied] is empty, the same players are online and none of them
    holds a square, the counter of every player who was holding a
    square is one more, online and in the directory, and the counters of
    the others are what they were; the handler writes players.json with
    the credited directory and then answers with levelCompleted and the
    snapshot of the new level. *)
Theorem completion_advances (s : Server) (req : option Data) (s1 : Server) :
  Occupies s req s1 →
  checkLevelCompletion s1 = true →
  idsAgree s →
  let s' := state_after (handleHold req) s in
  currentLevel s' = currentLevel s + 1
  ∧ squaresCount s' = squaresCount s * 2
  ∧ occupied s' = ∅
  ∧ dom (playersOnline s') = dom (playersOnline s1)
  ∧ (∀ k p', playersOnline s' !! k = Some p' → o_squareIndex p' = None)
  ∧ (∀ k p, playersOnline s1 !! k = Some p →
       ∃ p', playersOnline s' !! k = Some p'
             ∧ o_levelsCompleted p' = o_levelsCompleted p + (if holding p then 1 else 0)
             ∧ o_id p' = o_id p ∧ o_nickname p' = o_nickname p
             ∧ o_country p' = o_country p)
  ∧ (∀ id, levelsOf (players s') id =
             (λ n, n + (if holdsSquare (playersOnline s1) id then 1 else 0))
               <$> levelsOf (players s) id)
  ∧ effects (handleHold req) s =
      [SavePlayers (players s'); WriteJson 200 (Held (getBoardState s') true)]
  ∧ getBoardState s' =
      mkBoard (currentLevel s + 1) (squaresCount s * 2) ∅
              (view <$> values (playersOnline s')).
Proof.
  intros Hocc Hc Hids s'.
  destruct (handleHold_outcome s req) as [(s2 & Hocc2 & Hr & Hl) | (Hno & _)];
    [|by destruct (Hno s1)].
  rewrite (Occupies_unique _ _ _ _ Hocc2 Hocc) in Hr, Hl. clear s2 Hocc2.
  unfold settle in Hr. rewrite Hc in Hr.
  assert (Hs' : s' = advance s1) by (subst s'; unfold state_after; by rewrite Hr).
  destruct (Occupies_args _ _ _ Hocc) as [[playerId squareIndex] Ha].
  destruct (Occupies_inv _ _ _ _ _ Ha Hocc) as (player & _ & Ho & _ & _ & _ & _ & Hs1).
  destruct (ensureOnline_frame s playerId) as (Hps & _ & Hn & _).
  assert (Hids1 : idsAgree s1).
  { rewrite Hs1. apply idsAgree_assign; [|done]. by apply idsAgree_ensureOnline. }
  assert (Hn1 : squaresCount s1 = squaresCount s) by (by rewrite Hs1).
  assert (Hps1 : players s1 = players s) by (by rewrite Hs1).
  assert (Hlevel : currentLevel s' = currentLevel s + 1) by (rewrite Hs'; cbn; lia).
  assert (Hcount : squaresCount s' = squaresCount s * 2) by (rewrite Hs'; cbn; lia).
  split; [done|]. split; [done|]. split; [by rewrite Hs'|].
  split; [rewrite Hs'; cbn; by rewrite !dom_fmap_L|].
  split; [|split; [|split; [|split]]].
  - intros k p'. rewrite Hs'. cbn. rewrite !lookup_fmap.
    destruct (playersOnline s1 !! k); cbn; [|done]. by intros [= <-].
  - intros k p Hp. rewrite Hs'. cbn. rewrite !lookup_fmap, Hp. cbn.
    eexists. split; [done|]. unfold creditOnline. destruct (holding p); cbn; [done|].
    repeat split; lia.
  - intros id. rewrite Hs'. cbn [players advance].
    rewrite levelsOf_foldl, (credits_count _ _ Hids1), Hps1.
    destruct (levelsOf (players s) id); cbn; [|done].
    f_equal. by destruct (holdsSquare _ _).
  - unfold effects. by rewrite Hr, Hs'.
  - unfold getBoardState. rewrite Hlevel, Hcount. by rewrite Hs'.
Qed.

Lemma completion_advances_witness :
  let s := run [Hold (holdReq "p_1" (Qc_of_Z 0)); Hold (holdReq "p_2" (Qc_of_Z 1));
                Hold (holdReq "p_3" (Qc_of_Z 2))] lobby4 in
  let s' := state_after (handleHold (holdReq "p_4" (Qc_of_Z 3))) s in
  size (occupied s) = 3%nat
  ∧ currentLevel s' = 2 ∧ squaresCount s' = 8 ∧ occupied s' = ∅
  ∧ levelsOf (players s) "p_1" = Some 0 ∧ levelsOf (players s') "p_1" = Some 1
  ∧ levelsOf (players s) "p_4" = Some 0 ∧ levelsOf (players s') "p_4" = Some 1
  ∧ effects (handleHold (holdReq "p_4" (Qc_of_Z 3))) s =
      [SavePlayers (players s'); WriteJson 200 (Held (getBoardState s') true)].
Proof.
  intros s s'.
  assert (Hocc : Occupies s (holdReq "p_4" (Qc_of_Z 3))
                   (assign "p_4" (fresh (registered "p_4" "dan")) (Qc_of_Z 3) s)).
  { apply (Occupies_intro _ _ _ (mkData (Some "p_4") (Some (Qc_of_Z 3))) "p_4" (Qc_of_Z 3)
             (fresh (registered "p_4" "dan")));
      [reflexivity | reflexivity | done | reflexivity
      | exists (registered "p_4" "dan"); by vm_compute | by vm_compute
      | range | by vm_compute | reflexivity | by vm_compute | reflexivity]. }
  assert (Hids : idsAgree s).
  { apply (bool_decide_eq_true_1 (map_Forall (λ k p, o_id p = k) (playersOnline s))).
    by vm_compute. }
  destruct (completion_advances s _ _ Hocc ltac:(by vm_compute) Hids)
    as (Hl & Hn & Ho & _ & _ & _ & Hd & He & _).
  fold s' in Hl, Hn, Ho, Hd, He.
  split; [by vm_compute|]. split; [rewrite Hl; by vm_compute|].
  split; [rewrite Hn; by vm_compute|]. split; [exact Ho|].
  split; [by vm_compute|]. split; [rewrite Hd; by vm_compute|].
  split; [by vm_compute|]. split; [rewrite Hd; by vm_compute|]. exact He.
Defined.

(** ** Occupancy and held squares agree *)

Lemma Inv_Consistent s : Inv s → Consistent s.
Proof.
  intros [Hids Ht Hocc]. split; [exact Hocc|]. split; [congruence|]. split.
  - intros i j q (p & Hp & Hi)%Hocc (p' & Hp' & Hj)%Hocc. congruence.
  - intros i q (p & Hp & _)%Hocc. apply elem_of_dom. eauto.
Qed.

Lemma Inv_initial ps : Inv (initial ps).
Proof.
  split; [by intros k p | done |].
  intros i q. cbn. split; [done|]. by intros (p & Hp & _).
Qed.

Lemma Inv_ensureOnline s playerId :
  playerId ≠ "" → Inv s → Inv (state_after (ensureOnline playerId) s).
Proof.
  intros Hne HI. pose proof (idsAgree_ensureOnline s playerId (inv_ids _ HI)) as Hids.
  destruct HI as [_ Ht Hocc]. revert Hids. rewrite ensureOnline_state.
  destruct (getPlayerById (players s) playerId) as [stored|]; [|done].
  destruct (playersOnline s !! playerId) eqn:Ho; [done|].
  intros Hids. split; [done | by cbn; rewrite lookup_insert_ne |].
  intros i q. cbn. rewrite Hocc, lookup_insert. case_decide as Hq.
  - subst q. rewrite Ho. split; [by intros (p & ? & _) | by intros (p & [= <-] & ?)].
  - done.
Qed.

(** A square that passes the check of line 642 is free. *)
Lemma Inv_free s i : Inv s → truthy (occupied s !! i) = false → occupied s !! i = None.
Proof.
  intros [_ Ht Hocc]. unfold truthy.
  destruct (occupied s !! i) as [q|] eqn:Hq; [|done].
  intros Hb%bool_decide_eq_false. apply dec_stable in Hb. subst q.
  apply Hocc in Hq as (p & Hp & _). congruence.
Qed.

Lemma Inv_assign s playerId player squareIndex :
  Inv s → playersOnline s !! playerId = Some player → o_squareIndex player = None →
  occupied s !! squareIndex = None →
  Inv (assign playerId player squareIndex s).
Proof.
  intros HI Ho Hfree Hsq.
  pose proof (idsAgree_assign s playerId player squareIndex (inv_ids _ HI) Ho) as Hids.
  destruct HI as [Hid Ht Hocc]. split; [done| |].
  - cbn. rewrite lookup_insert_ne; [done|]. intros ->. congruence.
  - intros i q. cbn. rewrite (Hid _ _ Ho), !lookup_insert.
    destruct (decide (squareIndex = i)) as [<-|Hi];
      destruct (decide (playerId = q)) as [<-|Hq].
    + split; [by eexists | done].
    + split; [congruence|]. intros (p & Hp & Hps).
      assert (occupied s !! squareIndex = Some q) by (apply Hocc; eauto). congruence.
    + rewrite Hocc, Ho. split; [intros (p & [= <-] & ?); congruence|].
      intros (p & [= <-] & Hp). cbn in Hp. congruence.
    + apply Hocc.
Qed.

Lemma Inv_vacate s playerId player idx :
  Inv s → playersOnline s !! playerId = Some player → o_squareIndex player = Some idx →
  Inv (vacate playerId player idx s).
Proof.
  intros [Hid Ht Hocc] Ho Hidx. split.
  - intros k p. cbn. rewrite lookup_insert. case_decide as Hk.
    + intros [= <-]. subst k. cbn. by apply Hid.
    + apply Hid.
  - cbn. rewrite lookup_insert_ne; [done|]. intros ->. congruence.
  - intros i q. cbn. rewrite lookup_delete, lookup_insert.
    destruct (decide (idx = i)) as [<-|Hi];
      destruct (decide (playerId = q)) as [<-|Hq].
    + split; [done | by intros (p & [= <-] & ?)].
    + split; [done|]. intros (p & Hp & Hps).
      assert (occupied s !! idx = Some q) by (apply Hocc; eauto).
      assert (occupied s !! idx = Some playerId) by (apply Hocc; eauto). congruence.
    + rewrite Hocc, Ho. split; [intros (p & [= <-] & ?); congruence|].
      by intros (p & [= <-] & ?).
    + apply Hocc.
Qed.

Lemma Inv_advance s : Inv s → Inv (advance s).
Proof.
  intros [Hid Ht Hocc]. split.
  - intros k p. cbn. rewrite !lookup_fmap.
    destruct (playersOnline s !! k) as [p0|] eqn:Hk; cbn; [|done].
    intros [= <-]. cbn. unfold creditOnline. destruct (holding p0); cbn; by apply Hid.
  - cbn. by rewrite !lookup_fmap, Ht.
  - intros i q. cbn. rewrite !lookup_fmap. split; [done|].
    intros (p & Hp & Hi). destruct (playersOnline s !! q); cbn in Hp; [|done].
    injection Hp as <-. done.
Qed.

Lemma Inv_handle s op : Inv s → Inv (state_after (handle op) s).
Proof.
  intros HI. unfold state_after. destruct op as [req|req|req|]; cbn [handle].
  - destruct (idArg req) as [playerId|] eqn:Ha.
    + destruct (idArg_Some _ _ Ha) as (data & -> & Hp & Hne).
      pose proof (Inv_ensureOnline s playerId Hne HI) as HI'.
      rewrite ensureOnline_state in HI'. rewrite (handleJoin_run _ _ _ Hp Hne).
      destruct (getPlayerById (players s) playerId); [|done].
      by destruct (playersOnline s !! playerId).
    + by destruct (handleJoin_rejected s req Ha) as [msg ->].
  - destruct (handleHold_outcome s req)
      as [(s1 & Hocc & -> & _) | (_ & s0 & status & msg & -> & _ & Hs0 & _)].
    + destruct (Occupies_args _ _ _ Hocc) as [[playerId squareIndex] Ha].
      destruct (holdArgs_Some _ _ _ Ha) as (_ & _ & _ & Hne & _).
      destruct (Occupies_inv _ _ _ _ _ Ha Hocc) as (p & _ & Hp & _ & _ & Hfree & Ht & ->).
      pose proof (Inv_ensureOnline s playerId Hne HI) as HI0.
      destruct (ensureOnline_frame s playerId) as (_ & _ & _ & Hoc).
      assert (HI1 : Inv (assign playerId p squareIndex (state_after (ensureOnline playerId) s))).
      { apply Inv_assign; [done..|]. rewrite Hoc. by apply Inv_free. }
      unfold settle. destruct (checkLevelCompletion _); cbn [fst]; [by apply Inv_advance|done].
    + destruct Hs0 as [->|(pid & Hne & ->)]; [done|]. by apply Inv_ensureOnline.
  - destruct (idArg req) as [playerId|] eqn:Ha.
    + destruct (idArg_Some _ _ Ha) as (data & -> & Hp & Hne).
      rewrite (handleRelease_run _ _ _ Hp Hne).
      destruct (playersOnline s !! playerId) as [player|] eqn:Ho;
        [|by destruct (bool_decide _)].
      destruct (o_squareIndex player) as [idx|] eqn:Hi; [|done].
      by apply Inv_vacate.
    + by destruct (handleRelease_rejected s req Ha) as [msg ->].
  - done.
Qed.

Lemma Inv_run ops s : Inv s → Inv (run ops s).
Proof.
  revert s. induction ops as [|op ops IH]; intros s HI; [done|].
  apply IH. by apply Inv_handle.
Qed.

(** C5. After any sequence of join, hold, release and board requests,
    well-formed or not, served from start-up with any directory:
    [occupied] gives square [i] to player [q] exactly when the online
    player [q] holds [i]; a square has at most one holder and a player
    at most one square; every holder is online. *)
Theorem occupancy_consistent (ps : list Player) (ops : list Op) :
  Consistent (run ops (initial ps)).
Proof. apply Inv_Consistent, Inv_run, Inv_initial. Qed.

(** ** Snapshots *)

Ltac answered :=
  eexists [], _, _; cbn; split; [done|]; split; [apply Forall_nil_2 | cbn; eauto].

Lemma handle_response s op :
  ∃ pre status body,
    effects (handle op) s = pre ++ [WriteJson status body]
    ∧ Forall isSave pre
    ∧ match carried body with
      | Some b => status = 200 ∧ b = getBoardState (state_after (handle op) s)
      | None => status = 400 ∨ status = 403
      end.
Proof.
  unfold effects, state_after. destruct op as [req|req|req|]; cbn [handle].
  - destruct (idArg req) as [playerId|] eqn:Ha.
    + destruct (idArg_Some _ _ Ha) as (data & -> & Hp & Hne).
      rewrite (handleJoin_run _ _ _ Hp Hne).
      destruct (getPlayerById (players s) playerId);
        [destruct (playersOnline s !! playerId)|];
        answered.
    + destruct (handleJoin_rejected s req Ha) as [msg ->].
      answered.
  - destruct (handleHold_outcome s req)
      as [(s1 & _ & -> & _) | (_ & s0 & status & msg & -> & _ & _ & Hst)].
    + unfold settle. destruct (checkLevelCompletion s1).
      * eexists [_], _, _; cbn. split; [done|]. split; [|done].
        by apply Forall_singleton.
      * answered.
    + answered.
  - destruct (idArg req) as [playerId|] eqn:Ha.
    + destruct (idArg_Some _ _ Ha) as (data & -> & Hp & Hne).
      rewrite (handleRelease_run _ _ _ Hp Hne).
      destruct (playersOnline s !! playerId) as [player|];
        [destruct (o_squareIndex player)|destruct (bool_decide _)];
        answered.
    + destruct (handleRelease_rejected s req Ha) as [msg ->].
      answered.
  - rewrite handleBoard_run. answered.
Qed.

(** C8, as the specification states it: the entries of [players] in a
    snapshot carry levelsCompleted.  They do not: a player with no level
    completed and one with five give the same snapshot, and the same
    response to join. *)
Lemma snapshot_levelsCompleted_counterexample :
  let novice := mkPlayer "p_1" "ann" "ann@example.org" "secret" "NL" "player" (Some 0) in
  let veteran := mkPlayer "p_1" "ann" "ann@example.org" "secret" "NL" "player" (Some 5) in
  let s0 := state_after (handleJoin (idReq "p_1")) (initial [novice]) in
  let s5 := state_after (handleJoin (idReq "p_1")) (initial [veteran]) in
  o_levelsCompleted <$> playersOnline s0 !! "p_1" = Some 0
  ∧ o_levelsCompleted <$> playersOnline s5 !! "p_1" = Some 5
  ∧ getBoardState s0 = getBoardState s5
  ∧ effects (handleJoin (idReq "p_1")) (initial [novice])
      = effects (handleJoin (idReq "p_1")) (initial [veteran]).
Proof. by vm_compute. Qed.

(** C8, amended.  Every response of join, hold, release and board ends
    the effects of the call, after at most the write of players.json,
    and either is a refusal or carries the snapshot of the state the
    call leaves.  A snapshot has the level, squaresCount, a copy of
    [occupied] and one entry for each online player, made of its id,
    nickname, country and squareIndex and of nothing else. *)
Theorem snapshot_shape (s : Server) (op : Op) :
  (∃ pre status body,
     effects (handle op) s = pre ++ [WriteJson status body]
     ∧ Forall isSave pre
     ∧ match carried body with
       | Some b => status = 200 ∧ b = getBoardState (state_after (handle op) s)
       | None => status = 400 ∨ status = 403
       end)
  ∧ b_level (getBoardState s) = currentLevel s
  ∧ b_squaresCount (getBoardState s) = squaresCount s
  ∧ b_occupied (getBoardState s) = occupied s
  ∧ length (b_players (getBoardState s)) = size (playersOnline s)
  ∧ (∀ v, v ∈ b_players (getBoardState s) ↔
          ∃ k p, playersOnline s !! k = Some p
                 ∧ v = mkView (o_id p) (o_nickname p) (o_country p) (o_squareIndex p))
  ∧ (∀ p q, o_id p = o_id q → o_nickname p = o_nickname q → o_country p = o_country q →
            o_squareIndex p = o_squareIndex q → view p = view q).
Proof.
  split; [apply handle_response|]. split; [done|]. split; [done|]. split; [done|].
  split; [|split].
  - cbn. unfold values. by rewrite !length_fmap, length_map_to_list.
  - intros v. cbn. unfold values. rewrite list_elem_of_fmap. split.
    + intros (p & -> & ([k p'] & -> & Hkp)%list_elem_of_fmap).
      apply elem_of_map_to_list in Hkp. by exists k, p'.
    + intros (k & p & Hkp & ->). exists p. split; [done|].
      apply list_elem_of_fmap. exists (k, p). split; [done|].
      by apply elem_of_map_to_list.
  - intros p q Hi Hn Hc Hs. unfold view. by rewrite Hi, Hn, Hc, Hs.
Qed.

(** * Further properties of the server *)

(** ** Every request is a sequence of elementary changes *)

Lemma ensureOnline_moves s playerId :
  playerId ≠ "" → rtc GameMove s (state_after (ensureOnline playerId) s).
Proof.
  intros Hne. rewrite ensureOnline_state.
  destruct (getPlayerById (players s) playerId) as [stored|] eqn:Hg; [|done].
  destruct (playersOnline s !! playerId) eqn:Ho; [done|].
  apply rtc_once. by apply Move_enrol.
Qed.

Lemma settle_moves s1 : rtc GameMove s1 (settle s1).1.
Proof.
  unfold settle. destruct (checkLevelCompletion s1) eqn:Hc; cbn [fst]; [|done].
  apply rtc_once. by apply Move_advance.
Qed.

Lemma handle_moves s op : rtc GameMove s (state_after (handle op) s).
Proof.
  unfold state_after. destruct op as [req|req|req|]; cbn [handle].
  - destruct (idArg req) as [playerId|] eqn:Ha.
    + destruct (idArg_Some _ _ Ha) as (data & -> & Hp & Hne).
      pose proof (ensureOnline_moves s playerId Hne) as Hm.
      rewrite ensureOnline_state in Hm. rewrite (handleJoin_run _ _ _ Hp Hne).
      destruct (getPlayerById (players s) playerId); [|done].
      by destruct (playersOnline s !! playerId).
    + by destruct (handleJoin_rejected s req Ha) as [msg ->].
  - destruct (handleHold_outcome s req)
      as [(s1 & Hocc & -> & _) | (_ & s0 & status & msg & -> & _ & Hs0 & _)].
    + destruct (Occupies_args _ _ _ Hocc) as [[playerId squareIndex] Ha].
      destruct (holdArgs_Some _ _ _ Ha) as (_ & _ & _ & Hne & _).
      destruct (Occupies_inv _ _ _ _ _ Ha Hocc)
        as (p & _ & Hp & Hin & Hn & Hfree & Ht & ->).
      destruct (ensureOnline_frame s playerId) as (_ & _ & Hc & Hoc).
      etrans; [by apply ensureOnline_moves|].
      etrans; [|apply settle_moves]. apply rtc_once.
      apply Move_assign; [done | done | | by rewrite Hc | by rewrite Hoc].
      unfold inRange. by rewrite Hc.
    + destruct Hs0 as [->|(pid & Hne & ->)]; [done|]. by apply ensureOnline_moves.
  - destruct (idArg req) as [playerId|] eqn:Ha.
    + destruct (idArg_Some _ _ Ha) as (data & -> & Hp & Hne).
      rewrite (handleRelease_run _ _ _ Hp Hne).
      destruct (playersOnline s !! playerId) as [player|] eqn:Ho;
        [|by destruct (bool_decide _)].
      destruct (o_squareIndex player) as [idx|] eqn:Hi; [|done].
      apply rtc_once. by apply Move_vacate.
    + by destruct (handleRelease_rejected s req Ha) as [msg ->].
  - done.
Qed.

Section Whole.
Context `{Lowercase}.

Lemma handleRegister_directory newId req ps :
  (handleRegister newId req ps).1 = ps
  ∨ ∃ player, (handleRegister newId req ps).1 = ps ++ [player]
              ∧ p_id player = newId ∧ p_levelsCompleted player = Some 0.
Proof.
  unfold handleRegister. destruct req as [data|]; [|by left].
  destruct (_ || _); [by left|]. destruct (existsb _ _); [by left|].
  right. by eexists.
Qed.

Lemma act_moves a s : rtc Move s (act a s).
Proof.
  destruct a as [op|newId req| |]; cbn [act]; [| | done..].
  { eapply rtc_subrel; [|apply handle_moves]. intros s1 s2. apply Move_game. }
  destruct (handleRegister_directory newId req (players s)) as [->|(p & -> & _ & Hp)].
  - by destruct s.
  - apply rtc_once. by apply Move_register.
Qed.

Lemma serve_moves acts s : rtc Move s (serve acts s).
Proof.
  revert s. induction acts as [|a acts IH]; intros s; [done|].
  etrans; [apply act_moves|]. apply IH.
Qed.

(** An invariant of the elementary changes is an invariant of the server. *)
Lemma serve_invariant (P : Server → Prop) :
  (∀ s s', P s → Move s s' → P s') →
  ∀ acts s, P s → P (serve acts s).
Proof.
  intros Hstep acts s HP. induction (serve_moves acts s) as [|s0 s1 s2 Hm _ IH]; [done|].
  apply IH. by eapply Hstep.
Qed.

End Whole.

(** ** Invariants of the elementary changes *)

Lemma Inv_move s s' : Inv s → Move s s' → Inv s'.
Proof.
  intros HI [? [pid stored Hne Hg Ho | pid p sq Hp Hfree Hin Hn Ht | Hc | pid p idx Hp Hi]
     | new Hnew].
  - pose proof (Inv_ensureOnline s pid Hne HI) as HI'.
    by rewrite ensureOnline_state, Hg, Ho in HI'.
  - apply Inv_assign; [done..|]. by apply Inv_free.
  - by apply Inv_advance.
  - by apply Inv_vacate.
  - by destruct HI.
Qed.

Lemma getPlayerById_app ps qs id stored :
  getPlayerById ps id = Some stored → getPlayerById (ps ++ qs) id = Some stored.
Proof.
  induction ps as [|p ps IH]; cbn; [done|]. case_decide; [done|]. apply IH.
Qed.

Lemma levelsOf_app ps qs id n :
  levelsOf ps id = Some n → levelsOf (ps ++ qs) id = Some n.
Proof.
  unfold levelsOf. destruct (getPlayerById ps id) as [stored|] eqn:Hg; [|done].
  by rewrite (getPlayerById_app _ qs _ _ Hg).
Qed.

Lemma Synced_move s s' : Inv s → Synced s → Move s s' → Synced s'.
Proof.
  intros HI HS [? [pid stored Hne Hg Ho | pid p sq Hp Hfree Hin Hn Ht | Hc | pid p idx Hp Hi]
     | new Hnew]; intros k q; cbn.
  - rewrite lookup_insert. case_decide as Hk; [|apply HS].
    intros [= <-]. subst k. unfold levelsOf. by rewrite Hg.
  - rewrite lookup_insert. case_decide as Hk; [|apply HS].
    intros [= <-]. subst k. exact (HS _ _ Hp).
  - rewrite !lookup_fmap. destruct (playersOnline s !! k) as [p|] eqn:Hk; [|done].
    cbn. intros [= <-]. fold (levelsOf (foldl creditDirectory (players s) (values (playersOnline s))) k).
    rewrite levelsOf_foldl, (credits_count _ _ (inv_ids _ HI)).
    rewrite (HS _ _ Hk). unfold holdsSquare, creditOnline. rewrite Hk. cbn.
    f_equal. destruct (holding p); cbn; lia.
  - rewrite lookup_insert. case_decide as Hk; [|apply HS].
    intros [= <-]. subst k. exact (HS _ _ Hp).
  - intros Hk. apply (levelsOf_app _ _ _ _ (HS _ _ Hk)).
Qed.

Lemma BoardShape_move s s' : BoardShape s → Move s s' → BoardShape s'.
Proof.
  intros [Hl Hn] [? [pid stored Hne Hg Ho | pid p sq Hp Hfree Hin Hc Ht | Hc | pid p idx Hp Hi]
     | new Hnew]; try done.
  split; cbn; [lia|]. rewrite Hn.
  replace (currentLevel s + 1 - 1) with (Z.succ (currentLevel s - 1)) by lia.
  rewrite Z.pow_succ_r by lia. lia.
Qed.

Lemma KeysInRange_move s s' : KeysInRange s → Move s s' → KeysInRange s'.
Proof.
  intros HK [? [pid stored Hne Hg Ho | pid p sq Hp Hfree Hin Hn Ht | Hc | pid p idx Hp Hi]
     | new Hnew]; intros i q; cbn; try apply HK.
  - rewrite lookup_insert. case_decide as Hi; [by subst i | apply HK].
  - done.
  - rewrite lookup_delete. case_decide; [done | apply HK].
Qed.

Section Reachable.
Context `{Lowercase}.

Lemma serve_reachable acts ps :
  let s := serve acts (initial ps) in
  Inv s ∧ Synced s ∧ BoardShape s ∧ KeysInRange s.
Proof.
  apply (serve_invariant (λ s, Inv s ∧ Synced s ∧ BoardShape s ∧ KeysInRange s)).
  - intros s s' (HI & HS & HB & HK) Hm.
    split; [by eapply Inv_move|]. split; [by eapply Synced_move|].
    split; [by eapply BoardShape_move | by eapply KeysInRange_move].
  - split; [apply Inv_initial|]. by repeat split.
Qed.

(** X1. Whatever requests have been served since start-up, the level
    is at least 1 and the board of level L has 4 * 2^(L-1) squares. *)
Theorem board_shape_reachable (ps : list Player) (acts : list Action) :
  BoardShape (serve acts (initial ps)).
Proof. apply serve_reachable. Qed.

(** X2. Whatever requests have been served since start-up, every
    online player is registered, and the counter in its online entry is
    the one of the directory, read as [levelsCompleted || 0]. *)
Theorem online_counter_synced (ps : list Player) (acts : list Action) :
  let s := serve acts (initial ps) in
  ∀ k p, playersOnline s !! k = Some p →
    ∃ stored, getPlayerById (players s) k = Some stored
              ∧ p_id stored = o_id p
              ∧ or0 (p_levelsCompleted stored) = o_levelsCompleted p.
Proof.
  intros s k p Hk. destruct (serve_reachable acts ps) as (HI & HS & _).
  fold s in HI, HS. specialize (HS k p Hk). unfold levelsOf in HS.
  destruct (getPlayerById (players s) k) as [stored|] eqn:Hg; [|done].
  exists stored. split; [done|]. split.
  - rewrite (getPlayerById_id _ _ _ Hg). symmetry. by apply (inv_ids _ HI).
  - by injection HS.
Qed.

(** X3. Whatever requests have been served since start-up, every key
    of [occupied] is a number from 0 (included) to squaresCount
    (excluded), held by a player with a truthy id. *)
Theorem occupied_keys_in_range (ps : list Player) (acts : list Action) :
  let s := serve acts (initial ps) in
  ∀ i q, occupied s !! i = Some q → inRange i s ∧ q ≠ "".
Proof.
  intros s i q Hi. destruct (serve_reachable acts ps) as (HI & _ & _ & HK).
  fold s in HI, HK. split; [by eapply HK|]. intros ->.
  apply (inv_occupied _ HI) in Hi as (p & Hp & _). rewrite (inv_truthy _ HI) in Hp. done.
Qed.

End Reachable.

Lemma online_counter_synced_witness :
  let s := serve (H := asciiLowercase)
             [Register "p_5" (Some eve); Game (Join (idReq "p_5"))] (initial directory) in
  playersOnline s !! "p_5" = Some (mkOnline "p_5" "eve" "NL" "player" 0 None)
  ∧ ∃ stored, getPlayerById (players s) "p_5" = Some stored
              ∧ p_id stored = "p_5" ∧ or0 (p_levelsCompleted stored) = 0.
Proof.
  intros s.
  assert (Hk : playersOnline s !! "p_5" = Some (mkOnline "p_5" "eve" "NL" "player" 0 None))
    by (by vm_compute).
  split; [exact Hk|].
  exact (online_counter_synced (H := asciiLowercase) directory _ "p_5" _ Hk).
Defined.

Lemma occupied_keys_in_range_witness :
  let s := serve (H := asciiLowercase)
             (Game <$> [Join (idReq "p_1"); Join (idReq "p_2"); Join (idReq "p_3");
                        Join (idReq "p_4"); Hold (holdReq "p_2" half)])
             (initial directory) in
  occupied s !! half = Some "p_2" ∧ inRange half s ∧ "p_2" ≠ "".
Proof.
  intros s.
  assert (Hk : occupied s !! half = Some "p_2") by (by vm_compute).
  split; [exact Hk|].
  exact (occupied_keys_in_range (H := asciiLowercase) directory _ half "p_2" Hk).
Defined.

(** ** What no request undoes *)

Lemma KeepsOnline_refl s : KeepsOnline s s.
Proof. intros k p Hk. exists p. repeat split; [done|lia]. Qed.

Lemma KeepsOnline_trans s1 s2 s3 :
  KeepsOnline s1 s2 → KeepsOnline s2 s3 → KeepsOnline s1 s3.
Proof.
  intros H12 H23 k p Hk.
  destruct (H12 k p Hk) as (p2 & Hk2 & ? & ? & ? & ? & ?).
  destruct (H23 k p2 Hk2) as (p3 & Hk3 & ? & ? & ? & ? & ?).
  exists p3. repeat split; [done | congruence.. | lia].
Qed.

Lemma KeepsOnline_move s s' : Move s s' → KeepsOnline s s'.
Proof.
  intros [? [pid stored Hne Hg Ho | pid p sq Hp Hfree Hin Hn Ht | Hc | pid p idx Hp Hi]
     | new Hnew] k q Hk; cbn.
  - rewrite lookup_insert_ne by congruence. exists q. repeat split; [done|lia].
  - rewrite lookup_insert. case_decide as Hd.
    + subst k. replace q with p by congruence. eexists. repeat split; cbn; lia.
    + exists q. repeat split; [done|lia].
  - rewrite !lookup_fmap, Hk. cbn. eexists. split; [done|].
    unfold creditOnline. destruct (holding q); cbn; repeat split; lia.
  - rewrite lookup_insert. case_decide as Hd.
    + subst k. replace q with p by congruence. eexists. repeat split; cbn; lia.
    + exists q. repeat split; [done|lia].
  - exists q. repeat split; [done|lia].
Qed.

Lemma account_creditStored id ps : account <$> creditStored id ps = account <$> ps.
Proof.
  induction ps as [|p ps IH]; cbn; [done|].
  case_decide; cbn; [done|]. by rewrite IH.
Qed.

Lemma account_foldl l ps : account <$> foldl creditDirectory ps l = account <$> ps.
Proof.
  revert ps. induction l as [|a l IH]; intros ps; cbn; [done|].
  rewrite IH. unfold creditDirectory. destruct (holding a); [|done].
  apply account_creditStored.
Qed.

Lemma accounts_gamemove s s' :
  GameMove s s' → account <$> players s' = account <$> players s.
Proof.
  intros [pid stored Hne Hg Ho | pid p sq Hp Hfree Hin Hn Ht | Hc | pid p idx Hp Hi];
    cbn; try done.
  by rewrite account_foldl.
Qed.

Lemma run_moves ops s : rtc GameMove s (run ops s).
Proof.
  revert s. induction ops as [|op ops IH]; intros s; [done|].
  etrans; [apply handle_moves|]. apply IH.
Qed.

Lemma run_accounts ops s : account <$> players (run ops s) = account <$> players s.
Proof.
  induction (run_moves ops s) as [|s0 s1 s2 Hm _ IH]; [done|].
  rewrite IH. by apply accounts_gamemove.
Qed.

Lemma accounts_move s s' :
  Move s s' → (account <$> players s) `prefix_of` (account <$> players s').
Proof.
  intros [? [pid stored Hne Hg Ho | pid p sq Hp Hfree Hin Hn Ht | Hc | pid p idx Hp Hi]
     | new Hnew]; cbn; try done.
  - by rewrite account_foldl.
  - rewrite fmap_app. by apply prefix_app_r.
Qed.

Lemma counters_move s s' id n :
  Move s s' → levelsOf (players s) id = Some n →
  ∃ m, levelsOf (players s') id = Some m ∧ n ≤ m.
Proof.
  intros [? [pid stored Hne Hg Ho | pid p sq Hp Hfree Hin Hn Ht | Hc | pid p idx Hp Hi]
     | new Hnew] Hl; cbn [players set_playersOnline set_players assign vacate advance
                              set_occupied]; try (exists n; split; [done|lia]).
  - rewrite levelsOf_foldl, Hl. eexists. split; [done|]. lia.
  - exists n. split; [by apply levelsOf_app | lia].
Qed.

Lemma stuck_move s s' :
  Oversubscribed s → Move s s' →
  currentLevel s' = currentLevel s ∧ squaresCount s' = squaresCount s
  ∧ Oversubscribed s' ∧ occupied s' ⊆ occupied s ∧ players s `prefix_of` players s'.
Proof.
  unfold Oversubscribed.
  intros Hover [? [pid stored Hne Hg Ho | pid p sq Hp Hfree Hin Hn Ht | Hc | pid p idx Hp Hi]
     | new Hnew]; cbn.
  - rewrite map_size_insert_None by done. repeat split; [lia | done..].
  - lia.
  - apply checkLevelCompletion_true in Hc. lia.
  - rewrite map_size_insert_Some by done. repeat split; [done | apply delete_subseteq | done].
  - repeat split; [done.. | by apply prefix_app_r].
Qed.

Section Lasting.
Context `{Lowercase}.

(** X4. No request takes a player offline or changes who the player
    is: a player who is online stays online in every later state, with
    the same id, nickname, country and role, and a counter that is not
    smaller. *)
Theorem online_players_stay (acts : list Action) (s : Server) :
  KeepsOnline s (serve acts s)
  ∧ dom (playersOnline s) ⊆ dom (playersOnline (serve acts s))
  ∧ (size (playersOnline s) ≤ size (playersOnline (serve acts s)))%nat.
Proof.
  assert (HK : KeepsOnline s (serve acts s)).
  { apply (serve_invariant (KeepsOnline s)); [|apply KeepsOnline_refl].
    intros s1 s2 H1 Hm. eapply KeepsOnline_trans; [done|]. by apply KeepsOnline_move. }
  assert (Hdom : dom (playersOnline s) ⊆ dom (playersOnline (serve acts s))).
  { intros k [p Hk]%elem_of_dom. destruct (HK k p Hk) as (p' & Hk' & _).
    apply elem_of_dom. eauto. }
  split; [done|]. split; [done|].
  rewrite <- !size_dom. by apply subseteq_size.
Qed.

(** X5. No request removes, reorders or rewrites an account of the
    directory: the ids, nicknames, emails, passwords, countries and
    roles present in a state are a prefix of those of every later
    state, and no counter decreases.  The game requests (join, hold,
    release, board) leave them exactly as they are. *)
Theorem accounts_are_kept (acts : list Action) (ops : list Op) (s : Server) :
  (account <$> players s) `prefix_of` (account <$> players (serve acts s))
  ∧ (∀ id n, levelsOf (players s) id = Some n →
             ∃ m, levelsOf (players (serve acts s)) id = Some m ∧ n ≤ m)
  ∧ account <$> players (run ops s) = account <$> players s.
Proof.
  split; [|split].
  - apply (serve_invariant (λ s', (account <$> players s) `prefix_of` (account <$> players s')));
      [|done].
    intros s1 s2 H1 Hm. etrans; [done|]. by apply accounts_move.
  - intros id n Hn.
    apply (serve_invariant (λ s', ∃ m, levelsOf (players s') id = Some m ∧ n ≤ m));
      [|exists n; split; [done|lia]].
    intros s1 s2 (m & Hm & Hle) Hmove.
    destruct (counters_move _ _ _ _ Hmove Hm) as (m' & Hm' & Hle'). exists m'. split; [done|lia].
  - apply run_accounts.
Qed.

(** X6. Once more players are online than the board has squares, the
    game is stuck: whatever requests follow, the level and squaresCount
    stay what they are, the lobby stays too large, no square is taken
    any more (squares can only be released) and no entry of the
    directory changes. *)
Theorem oversubscribed_is_stuck (acts : list Action) (s : Server) :
  Oversubscribed s →
  let s' := serve acts s in
  currentLevel s' = currentLevel s ∧ squaresCount s' = squaresCount s
  ∧ Oversubscribed s' ∧ occupied s' ⊆ occupied s ∧ players s `prefix_of` players s'.
Proof.
  intros Hover.
  apply (serve_invariant (λ s', currentLevel s' = currentLevel s ∧ squaresCount s' = squaresCount s
    ∧ Oversubscribed s' ∧ occupied s' ⊆ occupied s ∧ players s `prefix_of` players s'));
    [|done].
  intros s1 s2 (Hl & Hn & Ho & Hocc & Hps) Hm.
  destruct (stuck_move _ _ Ho Hm) as (Hl' & Hn' & Ho' & Hocc' & Hps').
  split; [congruence|]. split; [congruence|]. split; [done|].
  split; [by etrans | by etrans].
Qed.

End Lasting.

Lemma oversubscribed_is_stuck_witness :
  Oversubscribed crowd
  ∧ currentLevel (serve (H := asciiLowercase) [Game (Hold (holdReq "p_1" (Qc_of_Z 0)));
                         Game (Hold (holdReq "p_5" (Qc_of_Z 1)))] crowd) = 1
  ∧ occupied (serve (H := asciiLowercase) [Game (Hold (holdReq "p_1" (Qc_of_Z 0)));
                     Game (Hold (holdReq "p_5" (Qc_of_Z 1)))] crowd) ⊆ ∅.
Proof.
  assert (Hover : Oversubscribed crowd) by (unfold Oversubscribed; by vm_compute).
  destruct (oversubscribed_is_stuck (H := asciiLowercase)
              [Game (Hold (holdReq "p_1" (Qc_of_Z 0))); Game (Hold (holdReq "p_5" (Qc_of_Z 1)))]
              crowd Hover) as (Hl & _ & _ & Hocc & _).
  split; [exact Hover|]. split.
  - rewrite Hl. by vm_compute.
  - etrans; [exact Hocc|]. by vm_compute.
Defined.

(** ** The hold that completes the level *)

(** With as many occupied squares as online players, everyone holds. *)
Lemma full_house s :
  Inv s → size (occupied s) = size (playersOnline s) →
  ∀ k p, playersOnline s !! k = Some p → holding p = true.
Proof.
  intros [Hid Ht Hocc] Hsize k p Hk.
  set (l := (map_to_list (occupied s)).*2).
  assert (Hnd : NoDup l).
  { apply NoDup_fmap_2_strong; [|apply NoDup_map_to_list].
    intros [i x] [j y] Hi%elem_of_map_to_list Hj%elem_of_map_to_list Hxy.
    cbn in Hxy. subst y. f_equal.
    apply Hocc in Hi as (pi & Hpi & Hsi). apply Hocc in Hj as (pj & Hpj & Hsj).
    congruence. }
  assert (Hsub : list_to_set (C := gset string) l ⊆ dom (playersOnline s)).
  { intros q [[i x] [-> Hi%elem_of_map_to_list]]%elem_of_list_to_set%list_elem_of_fmap.
    apply Hocc in Hi as (pi & Hpi & _). apply elem_of_dom. eauto. }
  assert (Heq : list_to_set (C := gset string) l = dom (playersOnline s)).
  { apply set_subseteq_size_eq; [done|].
    rewrite size_list_to_set by done. rewrite size_dom. unfold l.
    rewrite length_fmap, length_map_to_list. lia. }
  assert (Hin : k ∈ list_to_set (C := gset string) l).
  { rewrite Heq. apply elem_of_dom. eauto. }
  apply elem_of_list_to_set, list_elem_of_fmap in Hin as ([i x] & -> & Hi%elem_of_map_to_list).
  apply Hocc in Hi as (pi & Hpi & Hsi). cbn in Hk.
  replace p with pi by congruence. unfold holding. rewrite Hsi.
  by apply bool_decide_eq_true_2.
Qed.

Lemma Occupies_state s req s1 :
  Inv s → Occupies s req s1 →
  Inv s1 ∧ exec (handleHold req) s = settle s1
  ∧ currentLevel s1 = currentLevel s ∧ squaresCount s1 = squaresCount s
  ∧ Z.of_nat (size (playersOnline s1)) = squaresCount s1
  ∧ size (occupied s1) = S (size (occupied s)).
Proof.
  intros HI Hocc.
  destruct (handleHold_outcome s req) as [(s2 & Hocc2 & Hr & Hl) | (Hno & _)];
    [|by destruct (Hno s1)].
  rewrite (Occupies_unique _ _ _ _ Hocc2 Hocc) in Hr, Hl. clear s2 Hocc2.
  destruct (Occupies_args _ _ _ Hocc) as [[playerId squareIndex] Ha].
  destruct (holdArgs_Some _ _ _ Ha) as (_ & _ & _ & Hne & _).
  destruct (Occupies_inv _ _ _ _ _ Ha Hocc) as (p & _ & Hp & Hin & Hn & Hfree & Ht & ->).
  destruct (ensureOnline_frame s playerId) as (_ & _ & Hc & Hoc).
  pose proof (Inv_ensureOnline s playerId Hne HI) as HI0.
  assert (Hsq : occupied (state_after (ensureOnline playerId) s) !! squareIndex = None)
    by (rewrite Hoc; by apply Inv_free).
  split; [by apply Inv_assign|]. split; [done|]. split; [done|]. split; [done|].
  cbn. split.
  - rewrite map_size_insert_Some by done. by rewrite Hc.
  - rewrite map_size_insert_None by done. by rewrite Hoc.
Qed.

(** X7. In a state that satisfies the invariant of the server, a hold
    that occupies its square completes the level exactly when it takes
    the last free square, that is when one square less than squaresCount
    was occupied before: the head count compared by
    [checkLevelCompletion] was compared by [handleHold] already. *)
Theorem last_square_completes (s : Server) (req : option Data) (s1 : Server) :
  Inv s → Occupies s req s1 →
  Z.of_nat (size (playersOnline s1)) = squaresCount s1
  ∧ (checkLevelCompletion s1 = true ↔ Z.of_nat (size (occupied s)) + 1 = squaresCount s)
  ∧ (levelAdvanced s (state_after (handleHold req) s)
       ↔ Z.of_nat (size (occupied s)) + 1 = squaresCount s).
Proof.
  intros HI Hocc.
  destruct (Occupies_state _ _ _ HI Hocc) as (_ & Hr & Hl & Hc & Hn & Hs).
  assert (Hcheck : checkLevelCompletion s1 = true
                     ↔ Z.of_nat (size (occupied s)) + 1 = squaresCount s).
  { rewrite checkLevelCompletion_true, Hs, Hc. lia. }
  split; [done|]. split; [done|].
  rewrite <- Hcheck. unfold levelAdvanced, state_after. rewrite Hr. unfold settle.
  destruct (checkLevelCompletion s1); cbn; [split; [done|lia] | split; [congruence|done]].
Qed.

(** X8. In a state that satisfies the invariant of the server, when a
    hold completes the level every online player holds a square at that
    instant, so every online player is credited: each online counter and
    each directory counter of an online player is one more afterwards. *)
Theorem completion_credits_everyone (s : Server) (req : option Data) (s1 : Server) :
  Inv s → Occupies s req s1 → checkLevelCompletion s1 = true →
  let s' := state_after (handleHold req) s in
  ∀ k p, playersOnline s1 !! k = Some p →
    holding p = true
    ∧ (∃ p', playersOnline s' !! k = Some p'
             ∧ o_levelsCompleted p' = o_levelsCompleted p + 1)
    ∧ levelsOf (players s') k = (λ n, n + 1) <$> levelsOf (players s) k.
Proof.
  intros HI Hocc Hc s' k p Hk.
  destruct (Occupies_state _ _ _ HI Hocc) as (HI1 & Hr & _ & _ & _ & _).
  assert (Hs' : s' = advance s1).
  { subst s'. unfold state_after. rewrite Hr. unfold settle. by rewrite Hc. }
  assert (Hh : holding p = true).
  { apply (full_house s1 HI1) with k; [|done].
    apply checkLevelCompletion_true in Hc. lia. }
  assert (Hps : players s1 = players s).
  { destruct (Occupies_args _ _ _ Hocc) as [[playerId squareIndex] Ha].
    destruct (Occupies_inv _ _ _ _ _ Ha Hocc) as (? & _ & _ & _ & _ & _ & _ & ->).
    cbn. apply ensureOnline_frame. }
  split; [done|]. split.
  - rewrite Hs'. cbn. rewrite !lookup_fmap, Hk. cbn. eexists. split; [done|].
    unfold creditOnline. rewrite Hh. done.
  - rewrite Hs'. cbn [players advance].
    rewrite levelsOf_foldl, (credits_count _ _ (inv_ids _ HI1)), Hps.
    unfold holdsSquare. rewrite Hk, Hh. done.
Qed.

Lemma Inv_almost : Inv almost.
Proof. apply Inv_run, Inv_run, Inv_run, Inv_initial. Qed.

Lemma Inv_lobby4 : Inv lobby4.
Proof. apply Inv_run, Inv_run, Inv_initial. Qed.

Lemma Occupies_almost :
  Occupies almost (holdReq "p_4" (Qc_of_Z 3))
    (assign "p_4" (fresh (registered "p_4" "dan")) (Qc_of_Z 3) almost).
Proof.
  apply (Occupies_intro _ _ _ (mkData (Some "p_4") (Some (Qc_of_Z 3))) "p_4" (Qc_of_Z 3)
           (fresh (registered "p_4" "dan")));
    [reflexivity | reflexivity | done | reflexivity
    | exists (registered "p_4" "dan"); by vm_compute | by vm_compute
    | range | by vm_compute | reflexivity | by vm_compute | reflexivity].
Defined.

Lemma Occupies_lobby4 :
  Occupies lobby4 (holdReq "p_1" (Qc_of_Z 0))
    (assign "p_1" (fresh (registered "p_1" "ann")) (Qc_of_Z 0) lobby4).
Proof.
  apply (Occupies_intro _ _ _ (mkData (Some "p_1") (Some (Qc_of_Z 0))) "p_1" (Qc_of_Z 0)
           (fresh (registered "p_1" "ann")));
    [reflexivity | reflexivity | done | reflexivity
    | exists (registered "p_1" "ann"); by vm_compute | by vm_compute
    | range | by vm_compute | reflexivity | by vm_compute | reflexivity].
Defined.

Lemma last_square_completes_witness :
  levelAdvanced almost (state_after (handleHold (holdReq "p_4" (Qc_of_Z 3))) almost)
  ∧ ¬ levelAdvanced lobby4 (state_after (handleHold (holdReq "p_1" (Qc_of_Z 0))) lobby4).
Proof.
  destruct (last_square_completes almost _ _ Inv_almost Occupies_almost) as (_ & _ & Hlast).
  destruct (last_square_completes lobby4 _ _ Inv_lobby4 Occupies_lobby4) as (_ & _ & Hfirst).
  split.
  - apply Hlast. by vm_compute.
  - rewrite Hfirst. by vm_compute.
Defined.

Lemma completion_credits_everyone_witness :
  levelsOf (players almost) "p_2" = Some 0
  ∧ levelsOf (players level2) "p_2" = Some 1
  ∧ o_levelsCompleted <$> playersOnline level2 !! "p_2" = Some 1.
Proof.
  pose proof (completion_credits_everyone almost _ _ Inv_almost Occupies_almost
                ltac:(by vm_compute) "p_2"
                (with_squareIndex (Some (Qc_of_Z 1)) (fresh (registered "p_2" "bob")))
                ltac:(by vm_compute)) as (_ & (p' & Hp' & Hn) & Hd).
  split; [by vm_compute|]. split.
  - etrans; [exact Hd|]. by vm_compute.
  - unfold level2, run. cbn [foldl handle]. rewrite Hp'. cbn. by rewrite Hn.
Defined.

(** ** Hold, then release *)

Lemma with_squareIndex_back player squareIndex :
  o_squareIndex player = None →
  with_squareIndex None (with_squareIndex (Some squareIndex) player) = player.
Proof. destruct player. cbn. by intros ->. Qed.

(** X9. In a state the game can reach, a hold that succeeds without
    completing the level is undone by the release of the same player, up
    to the player being online: the release leaves the state
    [ensureOnline] made before the checks of the hold.  This is the very
    state before the hold for a player who was online, and that state
    with the player's new entry, holding nothing, for a player whom the
    hold put online. *)
Theorem hold_then_release (ps : list Player) (ops : list Op) (req : option Data)
    (b : Board) :
  let s := run ops (initial ps) in
  effects (handleHold req) s = [WriteJson 200 (Held b false)] →
  let held := state_after (handleHold req) s in
  let back := state_after (handleRelease req) held in
  ∃ playerId squareIndex stored,
    holdArgs req = Some (playerId, squareIndex)
    ∧ getPlayerById (players s) playerId = Some stored
    ∧ occupied held !! squareIndex = Some playerId
    ∧ occupied back = occupied s ∧ players back = players s
    ∧ currentLevel back = currentLevel s ∧ squaresCount back = squaresCount s
    ∧ (is_Some (playersOnline s !! playerId) → back = s)
    ∧ (playersOnline s !! playerId = None →
         back = mkServer (players s) (currentLevel s) (squaresCount s) (occupied s)
                  (<[playerId := mkOnline playerId (p_nickname stored) (p_country stored)
                                   (p_role stored) (default 0 (p_levelsCompleted stored))
                                   None]> (playersOnline s))
         ∧ back ≠ s).
Proof.
  intros s He held back.
  assert (HI : Inv s) by apply Inv_run, Inv_initial.
  clearbody s. unfold effects in He.
  destruct (handleHold_outcome s req) as [(s1 & Hocc & Hr & _) | (_ & s' & st & msg & Hr & _)];
    [|by rewrite Hr in He].
  destruct (Occupies_args _ _ _ Hocc) as [[playerId squareIndex] Ha].
  destruct (Occupies_inv _ _ _ _ _ Ha Hocc)
    as (player & [stored Hg] & Ho & Hin & Hn & Hfree & Ht & Hs1).
  assert (Hc : checkLevelCompletion s1 = false).
  { rewrite Hr in He. unfold settle in He. by destruct (checkLevelCompletion s1). }
  assert (Hheld : held = s1).
  { subst held. unfold state_after. rewrite Hr. unfold settle. by rewrite Hc. }
  destruct (holdArgs_Some _ _ _ Ha) as (data & -> & Hp & Hne & Hs).
  pose proof (Inv_ensureOnline s playerId Hne HI) as HI0.
  destruct (ensureOnline_frame s playerId) as (Hps & Hl & Hcnt & Hoc).
  pose proof (ensureOnline_state s playerId) as Hs0. rewrite Hg in Hs0.
  pose proof (getPlayerById_id _ _ _ Hg) as Hstored.
  remember (state_after (ensureOnline playerId) s) as s0 eqn:Es0.
  assert (Hocc0 : occupied s0 !! squareIndex = None).
  { rewrite Hoc. by apply Inv_free. }
  assert (Hid : o_id player = playerId) by (by apply (inv_ids _ HI0)).
  assert (Hback : back = s0).
  { subst back. rewrite Hheld, Hs1. unfold state_after.
    rewrite (handleRelease_run _ _ _ Hp Hne).
    cbn [assign playersOnline set_playersOnline]. rewrite lookup_insert_eq.
    cbn [with_squareIndex o_squareIndex fst]. unfold vacate, assign. cbn.
    rewrite insert_insert_eq, delete_insert_id by done.
    rewrite (with_squareIndex_back _ _ Hfree), insert_id by done.
    by destruct s0. }
  exists playerId, squareIndex, stored. split; [done|]. split; [done|].
  split. { rewrite Hheld, Hs1. cbn. by rewrite lookup_insert_eq, Hid. }
  rewrite Hback. split; [done|]. split; [done|]. split; [done|]. split; [done|].
  split.
  - intros [p Hp']. by rewrite Hs0, Hp'.
  - intros Hnone. rewrite Hnone in Hs0. split.
    + rewrite Hs0. unfold set_playersOnline, fresh, or0. by rewrite Hstored.
    + intros E. rewrite Hs0 in E.
      apply (f_equal (λ x, playersOnline x !! playerId)) in E.
      cbn in E. rewrite lookup_insert_eq, Hnone in E. done.
Qed.

Lemma hold_then_release_witness :
  let three := run [Join (idReq "p_1"); Join (idReq "p_2"); Join (idReq "p_3")]
                   (initial directory) in
  let four := run [Join (idReq "p_1"); Join (idReq "p_2"); Join (idReq "p_3");
                   Join (idReq "p_4")] (initial directory) in
  state_after (handleRelease (holdReq "p_1" (Qc_of_Z 2)))
    (state_after (handleHold (holdReq "p_1" (Qc_of_Z 2))) four) = four
  ∧ playersOnline three !! "p_4" = None
  ∧ state_after (handleRelease (holdReq "p_4" (Qc_of_Z 0)))
      (state_after (handleHold (holdReq "p_4" (Qc_of_Z 0))) three) ≠ three.
Proof.
  cbn zeta. split; [|split; [by vm_compute|]].
  - destruct (hold_then_release directory
                [Join (idReq "p_1"); Join (idReq "p_2"); Join (idReq "p_3"); Join (idReq "p_4")]
                (holdReq "p_1" (Qc_of_Z 2))
                (getBoardState
                   (run [Join (idReq "p_1"); Join (idReq "p_2"); Join (idReq "p_3");
                         Join (idReq "p_4"); Hold (holdReq "p_1" (Qc_of_Z 2))]
                        (initial directory))))
      as (playerId & squareIndex & stored & Ha & _ & _ & _ & _ & _ & _ & Hsame & _);
      [by vm_compute|].
    injection Ha as <- _. apply Hsame.
    exists (fresh (registered "p_1" "ann")). by vm_compute.
  - destruct (hold_then_release directory
                [Join (idReq "p_1"); Join (idReq "p_2"); Join (idReq "p_3")]
                (holdReq "p_4" (Qc_of_Z 0))
                (getBoardState
                   (run [Join (idReq "p_1"); Join (idReq "p_2"); Join (idReq "p_3");
                         Hold (holdReq "p_4" (Qc_of_Z 0))]
                        (initial directory))))
      as (playerId & squareIndex & stored & Ha & _ & _ & _ & _ & _ & _ & _ & Hnew);
      [by vm_compute|].
    injection Ha as <- _. apply Hnew. by vm_compute.
Defined.

(** ** After a completion *)

Lemma Occupies_settle s req s1 :
  Occupies s req s1 →
  exec (handleHold req) s = settle s1 ∧ squaresCount s1 = squaresCount s.
Proof.
  intros Hocc.
  destruct (handleHold_outcome s req) as [(s2 & Hocc2 & Hr & Hl) | (Hno & _)];
    [|by destruct (Hno s1)].
  rewrite (Occupies_unique _ _ _ _ Hocc2 Hocc) in Hr. split; [done|].
  destruct (Occupies_args _ _ _ Hocc) as [[playerId squareIndex] Ha].
  destruct (Occupies_inv _ _ _ _ _ Ha Hocc) as (? & _ & _ & _ & _ & _ & _ & ->).
  cbn. apply ensureOnline_frame.
Qed.

(** X10. Right after a completion the lobby has half the players the
    new board asks for, so every hold by a player who is online is
    refused and changes nothing: the next level cannot start before
    new players have come online. *)
Theorem after_completion_holds_refused (s : Server) (req : option Data) (s1 : Server) :
  Occupies s req s1 → checkLevelCompletion s1 = true → 0 < squaresCount s →
  let s' := state_after (handleHold req) s in
  Z.of_nat (size (playersOnline s')) * 2 = squaresCount s'
  ∧ ∀ data playerId squareIndex,
      d_playerId data = Some playerId → playerId ≠ "" →
      d_squareIndex data = Some squareIndex →
      is_Some (playersOnline s' !! playerId) →
      ∃ status msg,
        exec (handleHold (Some data)) s' = (s', [WriteJson status (Failure msg)]).
Proof.
  intros Hocc Hc Hpos s'.
  destruct (Occupies_settle _ _ _ Hocc) as (Hr & Hn).
  assert (Hs' : s' = advance s1).
  { subst s'. unfold state_after. rewrite Hr. unfold settle. by rewrite Hc. }
  apply checkLevelCompletion_true in Hc as (_ & Hsize).
  assert (Hhalf : Z.of_nat (size (playersOnline s')) * 2 = squaresCount s').
  { rewrite Hs'. cbn. rewrite !map_size_fmap. lia. }
  split; [done|].
  intros data playerId squareIndex Hp Hne Hs [p Ho].
  rewrite (handleHold_run _ _ _ _ Hp Hne Hs), Ho.
  destruct (getPlayerById (players s') playerId) as [stored|]; [|by eauto].
  unfold holdFrom. destruct (outOfRange squareIndex s'); [by eauto|].
  rewrite bool_decide_eq_true_2; [by eauto|].
  assert (0 < squaresCount s') by (rewrite Hs'; cbn; lia). lia.
Qed.

Lemma after_completion_holds_refused_witness :
  Z.of_nat (size (playersOnline level2)) = 4 ∧ squaresCount level2 = 8
  ∧ exec (handleHold (holdReq "p_1" (Qc_of_Z 0))) level2
      = (level2, [WriteJson 403 (Failure "Not enough players to start level")]).
Proof.
  destruct (after_completion_holds_refused almost _ _ Occupies_almost
              ltac:(by vm_compute) ltac:(by vm_compute)) as (_ & Hrefused).
  split; [by vm_compute|]. split; [by vm_compute|].
  destruct (Hrefused (mkData (Some "p_1") (Some (Qc_of_Z 0))) "p_1" (Qc_of_Z 0)
              eq_refl ltac:(done) eq_refl ltac:(eexists; by vm_compute))
    as (status & msg & Hr).
  etrans; [exact Hr|]. revert Hr. by vm_compute.
Defined.

(** * Accounts *)

Section Accounts.
Context `{Lowercase}.

Lemma existsb_sameEmail email ps :
  existsb (sameEmail email) ps = false ↔
    toLowerCase email ∉ (λ p, toLowerCase (p_email p)) <$> ps.
Proof.
  induction ps as [|p ps IH]; cbn.
  - split; [intros _; apply not_elem_of_nil | done].
  - rewrite orb_false_iff, IH, not_elem_of_cons. unfold sameEmail.
    rewrite bool_decide_eq_false. split; intros [? ?]; split; congruence.
Qed.



Lemma emails_of_accounts (ps qs : list Player) :
  account <$> ps = account <$> qs →
  (λ p, toLowerCase (p_email p)) <$> ps = (λ p, toLowerCase (p_email p)) <$> qs.
Proof.
  revert qs. induction ps as [|p ps IH]; intros [|q qs]; cbn; try done.
  intros [= _ _ -> _ _ _ Hrest]. by rewrite (IH _ Hrest).
Qed.

(** What an accepted registration is. *)
Lemma handleRegister_accepted newId req ps :
  (handleRegister newId req ps).1 ≠ ps →
  ∃ nickname email password country,
    req = Some (mkRegistration (Some nickname) (Some email) (Some password) (Some country))
    ∧ nickname ≠ "" ∧ email ≠ "" ∧ password ≠ "" ∧ country ≠ ""
    ∧ existsb (sameEmail email) ps = false
    ∧ handleRegister newId req ps =
        let player := mkPlayer newId nickname email password country "player" (Some 0) in
        (ps ++ [player],
         [SaveDirectory (ps ++ [player]); Respond 200 (Account (withoutPassword player))]).
Proof.
  unfold handleRegister. destruct req as [[nickname email password country]|]; [|done].
  cbn [r_nickname r_email r_password r_country].
  destruct (missing nickname) eqn:Hn; [done|]. destruct (missing email) eqn:He; [done|].
  destruct (missing password) eqn:Hp; [done|]. destruct (missing country) eqn:Hc; [done|].
  cbn [orb]. unfold missing, truthy in Hn, He, Hp, Hc.
  destruct nickname as [nickname|]; [|done]. destruct email as [email|]; [|done].
  destruct password as [password|]; [|done]. destruct country as [country|]; [|done].
  apply negb_false_iff, bool_decide_eq_true in Hn, He, Hp, Hc.
  cbn [default from_option id].
  destruct (existsb (sameEmail email) ps) eqn:Hex; [done|]. intros _.
  by exists nickname, email, password, country.
Qed.

(** X11. A registration either is refused, with a 400 response, no
    write of players.json and the directory unchanged, or it is
    accepted: then all four fields are truthy, no account had the same
    email up to case, exactly one account is appended, with the given
    fields, the role player and no level completed, and players.json is
    written with the new directory before the 200 response, which
    carries the account without the password. *)
Theorem register_outcome (newId : string) (req : option Registration) (ps : list Player) :
  (∃ msg, handleRegister newId req ps = (ps, [Respond 400 (Refused msg)]))
  ∨ (∃ nickname email password country,
       req = Some (mkRegistration (Some nickname) (Some email) (Some password) (Some country))
       ∧ nickname ≠ "" ∧ email ≠ "" ∧ password ≠ "" ∧ country ≠ ""
       ∧ (∀ p, p ∈ ps → toLowerCase (p_email p) ≠ toLowerCase email)
       ∧ let player := mkPlayer newId nickname email password country "player" (Some 0) in
         handleRegister newId req ps =
           (ps ++ [player],
            [SaveDirectory (ps ++ [player]); Respond 200 (Account (withoutPassword player))])).
Proof.
  destruct (decide ((handleRegister newId req ps).1 = ps)) as [Hsame|Hnew].
  - left. revert Hsame. unfold handleRegister. destruct req as [data|]; [|by eexists].
    destruct (_ || _); [by eexists|]. destruct (existsb _ _); [by eexists|].
    cbn. intros Happ. apply (f_equal length) in Happ. rewrite length_app in Happ.
    cbn in Happ. lia.
  - right. destruct (handleRegister_accepted _ _ _ Hnew)
      as (nickname & email & password & country & -> & Hn & He & Hp & Hc & Hex & Hr).
    exists nickname, email, password, country. repeat (split; [done|]). split; [|done].
    apply existsb_sameEmail in Hex. intros p Hp' Heq. apply Hex.
    apply list_elem_of_fmap. by exists p.
Qed.

(** X12. Registrations keep the emails of the directory pairwise
    different up to case, and so does every other request: if they are
    in a state, they are in every later state. *)
Theorem emails_stay_unique (acts : list Action) (s : Server) :
  UniqueEmails (players s) → UniqueEmails (players (serve acts s)).
Proof.
  revert s. induction acts as [|a acts IH]; intros s Hu; [done|].
  apply IH. clear IH. destruct a as [op|newId req| |]; cbn [act]; [| |done..].
  - unfold UniqueEmails in *.
    pose proof (run_accounts [op] s) as Hacc. cbn in Hacc.
    by rewrite (emails_of_accounts _ _ Hacc).
  - destruct (decide ((handleRegister newId req (players s)).1 = players s)) as [->|Hnew].
    { by destruct s. }
    destruct (handleRegister_accepted _ _ _ Hnew)
      as (nickname & email & password & country & _ & _ & _ & _ & _ & Hex & ->).
    cbn. unfold UniqueEmails in *. rewrite fmap_app. apply list.NoDup_app.
    split; [done|]. split; [|apply NoDup_singleton].
    intros x Hx [->|[]%elem_of_nil]%elem_of_cons. cbn in Hx.
    by apply existsb_sameEmail in Hex.
Qed.

End Accounts.

Lemma emails_stay_unique_witness :
  UniqueEmails (H := asciiLowercase) (players lobby4)
  ∧ UniqueEmails (H := asciiLowercase) (players crowd)
  ∧ length (players crowd) = 5%nat.
Proof.
  assert (Hu : UniqueEmails (H := asciiLowercase) (players lobby4)).
  { apply (bool_decide_eq_true_1
             (NoDup ((λ p, asciiLowercase (p_email p)) <$> players lobby4))).
    by vm_compute. }
  split; [exact Hu|]. split; [|by vm_compute].
  apply (emails_stay_unique (H := asciiLowercase)
           [Register "p_5" (Some eve); Game (Join (idReq "p_5"))] lobby4 Hu).
Defined.

Section Login.
Context `{Lowercase}.





End Login.


(** ** Registering, then joining *)

Lemma getPlayerById_app_new ps player :
  getPlayerById ps (p_id player) = None →
  getPlayerById (ps ++ [player]) (p_id player) = Some player.
Proof.
  induction ps as [|p ps IH]; cbn.
  - by rewrite decide_True.
  - case_decide; [done|]. apply IH.
Qed.

Lemma getPlayerById_app_is_Some ps player :
  is_Some (getPlayerById (ps ++ [player]) (p_id player)).
Proof.
  destruct (getPlayerById ps (p_id player)) as [old|] eqn:Hg.
  - exists old. by apply getPlayerById_app.
  - exists player. by apply getPlayerById_app_new.
Qed.

Section Newcomer.
Context `{Lowercase}.

(** X15. A player whose registration was accepted can join at once:
    the join with the new id answers 200 and the id is online
    afterwards.  If the id was not in the directory before (so that a
    join was answered Unknown player) and not online, the online entry
    has the registered nickname and country, no level completed and no
    square. *)
Theorem register_then_join (newId : string) (req : option Registration) (s : Server)
    (nickname email password country : string) :
  (handleRegister newId req (players s)).1 ≠ players s →
  req = Some (mkRegistration (Some nickname) (Some email) (Some password) (Some country)) →
  newId ≠ "" →
  let s' := act (Register newId req) s in
  let joined := state_after (handleJoin (idReq newId)) s' in
  effects (handleJoin (idReq newId)) s' = [WriteJson 200 (Success (getBoardState joined))]
  ∧ is_Some (playersOnline joined !! newId)
  ∧ (getPlayerById (players s) newId = None →
       effects (handleJoin (idReq newId)) s = [WriteJson 400 (Failure "Unknown player")]
       ∧ (playersOnline s !! newId = None →
            playersOnline joined !! newId
              = Some (mkOnline newId nickname country "player" 0 None))).
Proof.
  intros Hnew Hreq Hne s' joined.
  destruct (handleRegister_accepted _ _ _ Hnew)
    as (n & e & pw & c & Hreq' & _ & _ & _ & _ & _ & Hr).
  rewrite Hreq in Hreq'. injection Hreq' as <- <- <- <-.
  set (player := mkPlayer newId nickname email password country "player" (Some 0)) in *.
  assert (Hps : players s' = players s ++ [player]) by (subst s'; cbn; by rewrite Hr).
  assert (Hpo : playersOnline s' = playersOnline s) by done.
  clearbody s'.
  assert (Hrun : exec (handleJoin (idReq newId)) s' =
            match getPlayerById (players s') newId with
            | None => (s', [WriteJson 400 (Failure "Unknown player")])
            | Some stored =>
                match playersOnline s' !! newId with
                | Some _ => (s', [WriteJson 200 (Success (getBoardState s'))])
                | None =>
                    let s2 := set_playersOnline (<[newId := fresh stored]> (playersOnline s')) s' in
                    (s2, [WriteJson 200 (Success (getBoardState s2))])
                end
            end) by (by apply handleJoin_run).
  destruct (getPlayerById_app_is_Some (players s) player) as [stored Hstored].
  cbn [p_id player] in Hstored. rewrite <- Hps in Hstored. rewrite Hstored in Hrun.
  unfold effects, joined, state_after. split; [|split].
  - rewrite Hrun. by destruct (playersOnline s' !! newId).
  - rewrite Hrun. destruct (playersOnline s' !! newId) eqn:Ho; cbn; [by rewrite Ho|].
    rewrite lookup_insert_eq. by eexists.
  - intros Hg. split.
    + unfold idReq. by rewrite (handleJoin_run s (mkData (Some newId) None) newId eq_refl Hne), Hg.
    + intros Ho. rewrite Hrun, Hpo, Ho. cbn. rewrite lookup_insert_eq. f_equal.
      assert (stored = player) as ->; [|done].
      pose proof (getPlayerById_app_new (players s) player Hg) as Hnewp.
      cbn [p_id player] in Hnewp. rewrite <- Hps in Hnewp. congruence.
Qed.

End Newcomer.

Lemma register_then_join_witness :
  effects (handleJoin (idReq "p_5")) lobby4 = [WriteJson 400 (Failure "Unknown player")]
  ∧ playersOnline crowd !! "p_5" = Some (mkOnline "p_5" "eve" "NL" "player" 0 None).
Proof.
  destruct (register_then_join (H := asciiLowercase) "p_5" (Some eve) lobby4
              "eve" "Eve@Example.org" "pw" "NL" ltac:(by vm_compute) eq_refl ltac:(done))
    as (_ & _ & Hfresh).
  destruct (Hfresh ltac:(by vm_compute)) as (Hbefore & Hafter).
  split; [exact Hbefore|]. apply Hafter. by vm_compute.
Defined.

(** * The leaderboard *)

Lemma insertRow_perm x l : insertRow x l ≡ₚ x :: l.
Proof.
  induction l as [|y l IH]; cbn; [done|].
  case_bool_decide; [done|]. rewrite IH. apply Permutation_swap.
Qed.

Lemma sortRows_perm l : sortRows l ≡ₚ l.
Proof.
  induction l as [|x l IH]; cbn; [done|].
  fold (sortRows l). by rewrite insertRow_perm, IH.
Qed.

Lemma insertRow_sorted x l :
  StronglySorted ranksBefore l → StronglySorted ranksBefore (insertRow x l).
Proof.
  induction l as [|y l IH]; cbn; intros Hs.
  - by repeat constructor.
  - apply StronglySorted_inv in Hs as [Hl Hy]. case_bool_decide as Hle.
    + constructor; [by constructor|]. constructor; [done|].
      eapply Forall_impl; [exact Hy|]. unfold ranksBefore. intros z Hz. lia.
    + constructor; [by apply IH|]. rewrite insertRow_perm.
      constructor; [unfold ranksBefore; lia | done].
Qed.

Lemma sortRows_sorted l : StronglySorted ranksBefore (sortRows l).
Proof.
  induction l as [|x l IH]; cbn; [constructor|]. by apply insertRow_sorted.
Qed.

Lemma tied_cons n x l :
  tied n (x :: l) = if decide (w_levelsCompleted x = n) then x :: tied n l else tied n l.
Proof. unfold tied. by rewrite filter_cons. Qed.

Lemma insertRow_tied n x l : tied n (insertRow x l) = tied n (x :: l).
Proof.
  induction l as [|y l IH]; cbn [insertRow]; [done|].
  case_bool_decide as Hle; [done|].
  rewrite (tied_cons n y), IH, !(tied_cons n x), (tied_cons n y).
  destruct (decide (w_levelsCompleted y = n)), (decide (w_levelsCompleted x = n));
    try done. lia.
Qed.

Lemma sortRows_tied n l : tied n (sortRows l) = tied n l.
Proof.
  induction l as [|x l IH]; cbn [sortRows foldr]; [done|]. fold (sortRows l).
  by rewrite insertRow_tied, !tied_cons, IH.
Qed.

(** A ranking is determined by its ties. *)
Lemma sorted_by_ties l1 l2 :
  StronglySorted ranksBefore l1 → StronglySorted ranksBefore l2 →
  (∀ n, tied n l1 = tied n l2) → l1 = l2.
Proof.
  revert l2. induction l1 as [|x l1 IH]; intros l2 Hs1 Hs2 Ht.
  - destruct l2 as [|y l2]; [done|].
    specialize (Ht (w_levelsCompleted y)). rewrite tied_cons, decide_True in Ht by done.
    done.
  - destruct l2 as [|y l2].
    { specialize (Ht (w_levelsCompleted x)). rewrite tied_cons, decide_True in Ht by done.
      done. }
    apply StronglySorted_inv in Hs1 as [Hs1 Hx]. apply StronglySorted_inv in Hs2 as [Hs2 Hy].
    assert (Hin : ∀ n z l, z ∈ tied n l → z ∈ l ∧ w_levelsCompleted z = n).
    { intros n z l Hz. unfold tied in Hz. by apply list_elem_of_filter in Hz as [? ?]. }
    assert (Hxy : w_levelsCompleted x = w_levelsCompleted y).
    { assert (x ∈ y :: l2) as Hx2.
      { apply (Hin (w_levelsCompleted x)). rewrite <- Ht, tied_cons, decide_True by done.
        by left. }
      assert (y ∈ x :: l1) as Hy1.
      { apply (Hin (w_levelsCompleted y)). rewrite Ht, tied_cons, decide_True by done.
        by left. }
      apply elem_of_cons in Hx2 as [->|Hx2]; [done|].
      apply elem_of_cons in Hy1 as [->|Hy1]; [done|].
      rewrite Forall_forall in Hx, Hy. specialize (Hx _ Hy1). specialize (Hy _ Hx2).
      unfold ranksBefore in Hx, Hy. lia. }
    pose proof (Ht (w_levelsCompleted x)) as Hhead.
    rewrite !tied_cons, decide_True in Hhead by done.
    rewrite decide_True in Hhead by done. injection Hhead as -> Htail.
    f_equal. apply IH; [done..|]. intros n. specialize (Ht n).
    rewrite !tied_cons in Ht. destruct (decide (w_levelsCompleted y = n)); [|done].
    by injection Ht.
Qed.

Section Ranking.
Context `{Lowercase}.

(** The players [handleLeaderboard] keeps. *)
Lemma leaderboard_perm countryFilter ps :
  leaderboard countryFilter ps ≡ₚ
    row <$> (if truthy countryFilter
             then List.filter (fromCountry (default "" countryFilter)) ps else ps).
Proof. unfold leaderboard. apply sortRows_perm. Qed.

(** X16. The leaderboard is sorted by decreasing number of levels
    completed.  Without a country, or with an empty one, it has one row
    for each account of the directory; with a country it has one row for
    each account whose country is the given one up to case, and no
    other.  A row carries the id, nickname and country of the account
    and its counter, 0 when the counter is missing. *)
Theorem leaderboard_sorted (countryFilter : option string) (ps : list Player) :
  StronglySorted ranksBefore (leaderboard countryFilter ps)
  ∧ (truthy countryFilter = false → leaderboard countryFilter ps ≡ₚ row <$> ps)
  ∧ (∀ country, countryFilter = Some country → country ≠ "" →
       (length (leaderboard countryFilter ps) ≤ length ps)%nat
       ∧ ∀ r, r ∈ leaderboard countryFilter ps ↔
              ∃ p, p ∈ ps ∧ toLowerCase (p_country p) = toLowerCase country
                   ∧ r = mkRow (p_id p) (p_nickname p) (p_country p)
                               (or0 (p_levelsCompleted p))).
Proof.
  split; [apply sortRows_sorted|]. split.
  - intros Hc. rewrite leaderboard_perm. by rewrite Hc.
  - intros country -> Hne.
    assert (Ht : truthy (Some country) = true) by (by apply bool_decide_eq_true_2).
    pose proof (leaderboard_perm (Some country) ps) as Hp. rewrite Ht in Hp.
    cbn [default from_option id] in Hp. split.
    + rewrite Hp, length_fmap. apply List.filter_length_le.
    + intros r. rewrite Hp, list_elem_of_fmap. split.
      * intros (p & -> & Hin). apply list_elem_of_In, filter_In in Hin as [Hin Hc].
        apply list_elem_of_In in Hin. unfold fromCountry in Hc.
        apply bool_decide_eq_true in Hc. by exists p.
      * intros (p & Hin & Hc & ->). exists p. split; [done|].
        apply list_elem_of_In, filter_In. split; [by apply list_elem_of_In|].
        by apply bool_decide_eq_true_2.
Qed.

(** X17. Accounts with the same number of levels completed are ranked
    in the order of the directory, which is the order of registration;
    and the leaderboard is the only list that is sorted by decreasing
    count and has this property, so that it is what any stable sort
    makes of the selected accounts. *)
Theorem leaderboard_stable (countryFilter : option string) (ps : list Player) :
  let selected := if truthy countryFilter
                  then List.filter (fromCountry (default "" countryFilter)) ps else ps in
  (∀ n, tied n (leaderboard countryFilter ps) = tied n (row <$> selected))
  ∧ ∀ l, StronglySorted ranksBefore l → (∀ n, tied n l = tied n (row <$> selected)) →
         l = leaderboard countryFilter ps.
Proof.
  cbn zeta. split.
  - intros n. apply sortRows_tied.
  - intros l Hs Ht. apply sorted_by_ties; [done | apply sortRows_sorted|].
    intros n. rewrite Ht. symmetry. apply sortRows_tied.
Qed.

End Ranking.

(** * The router *)

Lemma prefix_comparable a b u :
  String.prefix a u = true → String.prefix b u = true →
  String.prefix a b = true ∨ String.prefix b a = true.
Proof.
  revert a b. induction u as [|c u IH]; intros [|ca a] [|cb b]; cbn; auto; try done.
  destruct (Ascii.ascii_dec ca c) as [->|]; [|done].
  destruct (Ascii.ascii_dec cb c) as [->|]; [|done].
  destruct (Ascii.ascii_dec c c); [|done]. apply IH.
Qed.

Lemma prefix_apart a b u :
  String.prefix a b = false → String.prefix b a = false →
  String.prefix a u = true → String.prefix b u = true → False.
Proof.
  intros Hab Hba Ha Hb. destruct (prefix_comparable a b u Ha Hb); congruence.
Qed.

Ltac apart a b u :=
  pose proof (prefix_apart a b u eq_refl eq_refl).

(** X18. Which handler a request reaches depends on its method and on
    the prefix of its URL alone, whatever follows the prefix and
    whatever the order of the tests: no URL starts with two of the
    prefixes that share a method.  OPTIONS is always the preflight; the
    handlers that change the state (register, join, hold, release) are
    only reached by POST, and a GET reaches the leaderboard, the board
    or the static files. *)
Theorem routing (method reqUrl : string) :
  let r := handleRequest method reqUrl in
  let starts prefix := String.prefix prefix reqUrl = true in
  (r = Preflight ↔ method = "OPTIONS")
  ∧ (r = ToRegister ↔ method = "POST" ∧ starts "/register")
  ∧ (r = ToLogin ↔ method = "POST" ∧ starts "/login")
  ∧ (r = ToLeaderboard ↔ method = "GET" ∧ starts "/leaderboard")
  ∧ (r = ToBoard ↔ method = "GET" ∧ starts "/board")
  ∧ (r = ToJoin ↔ method = "POST" ∧ starts "/join")
  ∧ (r = ToHold ↔ method = "POST" ∧ starts "/hold")
  ∧ (r = ToRelease ↔ method = "POST" ∧ starts "/release")
  ∧ (method = "GET" → r = ToLeaderboard ∨ r = ToBoard ∨ r = ToStatic).
Proof.
  cbn zeta. unfold handleRequest.
  apart "/register" "/login" reqUrl. apart "/register" "/join" reqUrl.
  apart "/register" "/hold" reqUrl. apart "/register" "/release" reqUrl.
  apart "/login" "/join" reqUrl. apart "/login" "/hold" reqUrl.
  apart "/login" "/release" reqUrl. apart "/join" "/hold" reqUrl.
  apart "/join" "/release" reqUrl. apart "/hold" "/release" reqUrl.
  apart "/leaderboard" "/board" reqUrl.
  destruct (decide (method = "OPTIONS")) as [->|Ho].
  { cbn. repeat split; try done; by intros []. }
  rewrite (bool_decide_eq_false_2 _ Ho).
  destruct (decide (method = "POST")) as [->|Hp].
  { cbn [bool_decide decide_rel]. rewrite !andb_false_r, !andb_true_r.
    destruct (String.prefix "/register" reqUrl), (String.prefix "/login" reqUrl),
      (String.prefix "/join" reqUrl), (String.prefix "/hold" reqUrl),
      (String.prefix "/release" reqUrl);
      try (exfalso; auto; fail); cbn; repeat split; try done; by intros []. }
  rewrite (bool_decide_eq_false_2 _ Hp), !andb_false_r.
  destruct (decide (method = "GET")) as [->|Hg].
  { cbn [bool_decide decide_rel]. rewrite !andb_true_r.
    destruct (String.prefix "/leaderboard" reqUrl), (String.prefix "/board" reqUrl);
      try (exfalso; auto; fail); cbn; repeat split; try done; try (by intros []); auto. }
  rewrite (bool_decide_eq_false_2 _ Hg), !andb_false_r.
  repeat split; try done; by intros [].
Qed.

(** * The client and the snapshot *)

Lemma findPlayer_only vs occupantId v0 :
  v0 ∈ vs → v_id v0 = occupantId →
  (∀ v, v ∈ vs → v_id v = occupantId → v = v0) →
  findPlayer vs occupantId = Some v0.
Proof.
  induction vs as [|v vs IH]; intros Hin Hid Hall; [by apply elem_of_nil in Hin|].
  cbn. case_decide as Hv.
  - f_equal. apply Hall; [left | done].
  - apply IH; [|done|].
    + apply elem_of_cons in Hin as [->|Hin]; [done | done].
    + intros v' Hv' Hid'. apply Hall; [by right | done].
Qed.

Lemma findPlayer_online s q p :
  idsAgree s → playersOnline s !! q = Some p →
  findPlayer (b_players (getBoardState s)) q = Some (view p).
Proof.
  intros Hids Hq. cbn. unfold values. apply findPlayer_only.
  - apply list_elem_of_fmap. exists p. split; [done|].
    apply list_elem_of_fmap. exists (q, p). split; [done|]. by apply elem_of_map_to_list.
  - cbn. by apply Hids.
  - intros v (p' & -> & ([k p''] & -> & Hk%elem_of_map_to_list)%list_elem_of_fmap)%list_elem_of_fmap.
    cbn. intros Hid. rewrite (Hids _ _ Hk) in Hid. subst k. cbn in Hq. congruence.
Qed.

Section Display.
Context `{Lowercase}.

(** X19. For every snapshot the server can produce, the client finds
    the holder of each occupied square among the players of the same
    snapshot and shows the holder's nickname: the text Occupied, which
    [updateBoard] keeps for a holder it does not find, never appears. *)
Theorem square_shows_holder (ps : list Player) (acts : list Action) (i : Z) (q : string) :
  let s := serve acts (initial ps) in
  occupied s !! Qc_of_Z i = Some q →
  ∃ p, playersOnline s !! q = Some p
       ∧ o_squareIndex p = Some (Qc_of_Z i)
       ∧ squareText (getBoardState s) i = Some (o_nickname p).
Proof.
  intros s Hi. destruct (serve_reachable acts ps) as (HI & _). fold s in HI.
  pose proof Hi as Hocc. apply (inv_occupied _ HI) in Hocc as (p & Hp & Hsq).
  exists p. split; [done|]. split; [done|].
  assert (Hq : q ≠ "") by (intros ->; rewrite (inv_truthy _ HI) in Hp; done).
  unfold squareText. cbn [b_occupied getBoardState]. rewrite Hi. cbn [truthy].
  rewrite bool_decide_eq_true_2 by done. cbn [default from_option id].
  by rewrite (findPlayer_online _ _ _ (inv_ids _ HI) Hp).
Qed.

End Display.

Lemma square_shows_holder_witness :
  let s := serve (H := asciiLowercase)
             (Game <$> [Join (idReq "p_1"); Join (idReq "p_2"); Join (idReq "p_3");
                        Join (idReq "p_4"); Hold (holdReq "p_1" (Qc_of_Z 0));
                        Hold (holdReq "p_2" (Qc_of_Z 1)); Hold (holdReq "p_3" (Qc_of_Z 2))])
             (initial directory) in
  occupied s !! Qc_of_Z 1 = Some "p_2"
  ∧ squareText (getBoardState s) 1 = Some "bob".
Proof.
  intros s.
  assert (Hocc : occupied s !! Qc_of_Z 1 = Some "p_2") by (by vm_compute).
  split; [exact Hocc|].
  destruct (square_shows_holder (H := asciiLowercase) directory _ 1 "p_2" Hocc)
    as (p & Hp & _ & Ht).
  etrans; [exact Ht|]. revert Hp. vm_compute. by intros [= <-].
Defined.

(** X20. The client and the server agree on when a square can be
    taken.  For a registered player who is online and holds nothing,
    and an integer [i] of the board: if [updateBoard] makes square [i]
    pressable in the snapshot of a state, the hold of [i] in that state
    succeeds; if it does not, the hold is refused with a 403 response and
    changes nothing. *)
Theorem client_offer_agrees (s : Server) (data : Data) (playerId : string) (i : Z)
    (stored : Player) (player : Online) :
  d_playerId data = Some playerId → playerId ≠ "" →
  d_squareIndex data = Some (Qc_of_Z i) →
  0 ≤ i ≤ squaresCount s - 1 →
  getPlayerById (players s) playerId = Some stored →
  playersOnline s !! playerId = Some player →
  o_squareIndex player = None →
  (offersHold (getBoardState s) i = true →
     exec (handleHold (Some data)) s = settle (assign playerId player (Qc_of_Z i) s))
  ∧ (offersHold (getBoardState s) i = false →
       ∃ msg, exec (handleHold (Some data)) s = (s, [WriteJson 403 (Failure msg)])).
Proof.
  intros Hp Hne Hs Hi Hg Ho Hfree.
  apply inRange_integer in Hi.
  rewrite (handleHold_run _ _ _ _ Hp Hne Hs), Hg, Ho.
  destruct (holdFrom_case playerId player (Qc_of_Z i) s) as (_ & H2 & _ & H4 & H5).
  unfold offersHold. cbn [b_occupied b_players b_squaresCount getBoardState].
  unfold values. rewrite !length_fmap, length_map_to_list.
  split.
  - intros [Ht Hn]%andb_true_iff. apply negb_true_iff in Ht.
    apply bool_decide_eq_true in Hn. by apply H5.
  - intros [Ht|Hn]%andb_false_iff.
    + apply negb_false_iff in Ht.
      destruct (decide (Z.of_nat (size (playersOnline s)) = squaresCount s)) as [Hn|Hn].
      * eexists. by apply H4.
      * eexists. by apply H2.
    + apply bool_decide_eq_false in Hn. eexists. by apply H2.
Qed.

Lemma client_offer_agrees_witness :
  offersHold (getBoardState lobby4) 2 = true
  ∧ offersHold (getBoardState lobby3) 2 = false
  ∧ (∃ b, exec (handleHold (holdReq "p_1" (Qc_of_Z 2))) lobby4
            = (assign "p_1" (fresh (registered "p_1" "ann")) (Qc_of_Z 2) lobby4,
               [WriteJson 200 (Held b false)]))
  ∧ ∃ msg, exec (handleHold (holdReq "p_1" (Qc_of_Z 2))) lobby3
             = (lobby3, [WriteJson 403 (Failure msg)]).
Proof.
  assert (Hne : "p_1" ≠ "") by done.
  assert (H4 : offersHold (getBoardState lobby4) 2 = true) by (by vm_compute).
  assert (H3 : offersHold (getBoardState lobby3) 2 = false) by (by vm_compute).
  assert (Hi4 : 0 ≤ 2 ≤ squaresCount lobby4 - 1)
    by (replace (squaresCount lobby4) with 4 by (by vm_compute); lia).
  assert (Hi3 : 0 ≤ 2 ≤ squaresCount lobby3 - 1)
    by (replace (squaresCount lobby3) with 4 by (by vm_compute); lia).
  assert (Hg4 : getPlayerById (players lobby4) "p_1" = Some (registered "p_1" "ann"))
    by (by vm_compute).
  assert (Hg3 : getPlayerById (players lobby3) "p_1" = Some (registered "p_1" "ann"))
    by (by vm_compute).
  assert (Ho4 : playersOnline lobby4 !! "p_1" = Some (fresh (registered "p_1" "ann")))
    by (by vm_compute).
  assert (Ho3 : playersOnline lobby3 !! "p_1" = Some (fresh (registered "p_1" "ann")))
    by (by vm_compute).
  destruct (client_offer_agrees lobby4 (mkData (Some "p_1") (Some (Qc_of_Z 2))) "p_1" 2
              _ _ eq_refl Hne eq_refl Hi4 Hg4 Ho4 eq_refl) as (Hyes & _).
  destruct (client_offer_agrees lobby3 (mkData (Some "p_1") (Some (Qc_of_Z 2))) "p_1" 2
              _ _ eq_refl Hne eq_refl Hi3 Hg3 Ho3 eq_refl) as (_ & Hno).
  split; [exact H4|]. split; [exact H3|]. split.
  - eexists. etrans; [exact (Hyes H4)|]. by vm_compute.
  - exact (Hno H3).
Defined.

Section WholeServer.
Context `{Lowercase}.

(** X21. Registrations, logins and leaderboard requests can be mixed
    with the game requests in any order without disturbing the game:
    after any such sequence served from start-up, [occupied] and the
    held squares of the online players agree as for the game alone. *)
Theorem whole_server_consistent (ps : list Player) (acts : list Action) :
  Consistent (serve acts (initial ps)).
Proof. apply Inv_Consistent. apply serve_reachable. Qed.

End WholeServer.
